(** * storm_monitor: the forecast-track engine, embedded and verified

    A shallow embedding of the pure parts of [app_functions.py] and
    [get_Forecast_Data_V3.py]: the radius table, the two intensity
    classifiers, the coordinate parser, the label cleaner, the storm-name
    inference and the control flow of the cone builder.

    Conventions.
    - A Python [str] is a [string]; a character is the code point it
      denotes, so the embedding covers the strings whose code points lie in
      U+0000..U+00FF.
    - A Python number that is finite ([int], or a finite [float]) is a
      rational: comparisons between such numbers are exact in Python.
    - A Python call that can raise returns a [result]. *)

From Stdlib Require Import ZArith QArith Qround Qminmax Lqa String Ascii List Lia Bool Sorted.
From stdpp Require Import gmap strings list fin_maps pretty.
Import ListNotations.

Open Scope string_scope.

(** ** Exceptions *)

Inductive exn : Type :=
| KeyError (key : string)
| ValueError
| IndexError
| AttributeError
| NameError
| RuntimeError (msg : string).

Inductive result (A : Type) : Type :=
| Ok (a : A)
| Raise (e : exn).

Arguments Ok {A} a.
Arguments Raise {A} e.

#[global] Instance result_ret : MRet result := fun A a => Ok a.

#[global] Instance result_bind : MBind result := fun A B k r =>
  match r with
  | Ok a => k a
  | Raise e => Raise e
  end.

(** ** Python string primitives *)

Module PyStr.

(** [str.isspace] on one character, from the Unicode database restricted to
    U+0000..U+00FF: TAB..CR, FS..US, SPACE, NEL and NBSP. *)
Definition isspace (c : ascii) : bool :=
  let n := N_of_ascii c in
  ((9 <=? n) && (n <=? 13) || (28 <=? n) && (n <=? 32)
   || (n =? 133) || (n =? 160))%N.

(** [str.isdigit] on one character: the ASCII digits and the superscripts
    two, three and one. *)
Definition isdigit (c : ascii) : bool :=
  let n := N_of_ascii c in
  ((48 <=? n) && (n <=? 57) || (n =? 178) || (n =? 179) || (n =? 185))%N.

(** [any(char.isdigit() for char in word)] *)
Fixpoint any_isdigit (word : string) : bool :=
  match word with
  | EmptyString => false
  | String c rest => isdigit c || any_isdigit rest
  end.

Fixpoint any_isspace (word : string) : bool :=
  match word with
  | EmptyString => false
  | String c rest => isspace c || any_isspace rest
  end.

Definition is_empty (s : string) : bool :=
  match s with
  | EmptyString => true
  | String _ _ => false
  end.

(** [s.lstrip(chars)], [s.rstrip(chars)] with the stripped characters given
    as a predicate. *)
Fixpoint lstrip_by (p : ascii -> bool) (s : string) : string :=
  match s with
  | EmptyString => EmptyString
  | String c rest => if p c then lstrip_by p rest else s
  end.

Fixpoint rstrip_by (p : ascii -> bool) (s : string) : string :=
  match s with
  | EmptyString => EmptyString
  | String c rest =>
      let r := rstrip_by p rest in
      if p c && is_empty r then EmptyString else String c r
  end.

(** [s.strip()] *)
Definition strip (s : string) : string := rstrip_by isspace (lstrip_by isspace s).

(** [s.split()] with no argument: the maximal runs of non-whitespace.
    [split_aux s] is the run that starts [s] (empty when [s] starts with
    whitespace) and the runs after it. *)
Fixpoint split_aux (s : string) : string * list string :=
  match s with
  | EmptyString => (EmptyString, [])
  | String c rest =>
      let '(w, ws) := split_aux rest in
      if isspace c then (EmptyString, if is_empty w then ws else w :: ws)
      else (String c w, ws)
  end.

Definition split (s : string) : list string :=
  let '(w, ws) := split_aux s in
  if is_empty w then ws else w :: ws.

(** [sep.join(words)] *)
Fixpoint join (sep : string) (words : list string) : string :=
  match words with
  | [] => EmptyString
  | [w] => w
  | w :: rest => w ++ sep ++ join sep rest
  end.

(** A word as [split] produces them: not empty, no whitespace in it. *)
Definition is_word (w : string) : Prop :=
  w <> EmptyString /\ any_isspace w = false.

(** Case and letters, on the ASCII letters: the advisory files are ASCII,
    and the embedding gives a character above U+007F no case and does not
    count it as a letter. *)
Definition is_lower (c : ascii) : bool :=
  let n := N_of_ascii c in ((97 <=? n) && (n <=? 122))%N.

Definition is_upper (c : ascii) : bool :=
  let n := N_of_ascii c in ((65 <=? n) && (n <=? 90))%N.

Definition is_letter (c : ascii) : bool := is_lower c || is_upper c.

Definition to_upper (c : ascii) : ascii :=
  if is_lower c then ascii_of_N (N_of_ascii c - 32) else c.

Definition to_lower (c : ascii) : ascii :=
  if is_upper c then ascii_of_N (N_of_ascii c + 32) else c.

(** All code points are ASCII. *)
Fixpoint ascii_only (s : string) : bool :=
  match s with
  | EmptyString => true
  | String c rest => (N_of_ascii c <? 128)%N && ascii_only rest
  end.

(** [s.upper()] *)
Fixpoint upper (s : string) : string :=
  match s with
  | EmptyString => EmptyString
  | String c rest => String (to_upper c) (upper rest)
  end.

Fixpoint all_letters (s : string) : bool :=
  match s with
  | EmptyString => true
  | String c rest => is_letter c && all_letters rest
  end.

(** [s.isalpha()]: at least one character, and all of them letters. *)
Definition isalpha (s : string) : bool := negb (is_empty s) && all_letters s.

(** [s.title()]: a letter that follows a letter is lowered, any other
    letter is raised. *)
Fixpoint title_from (previous_is_cased : bool) (s : string) : string :=
  match s with
  | EmptyString => EmptyString
  | String c rest =>
      String (if previous_is_cased then to_lower c else to_upper c)
             (title_from (is_letter c) rest)
  end.

Definition title (s : string) : string := title_from false s.

(** [s.endswith(suffix)] *)
Definition endswith (s suffix : string) : bool :=
  let n := String.length s in
  let m := String.length suffix in
  (m <=? n)%nat && String.eqb (substring (n - m) m s) suffix.

(** [s[:-k]] *)
Definition slice_to_minus (k : nat) (s : string) : string :=
  match k with
  | O => EmptyString
  | S _ => substring 0 (String.length s - k) s
  end.

(** [s[-1]] and [s[:-1]] *)
Fixpoint last_char (s : string) : result ascii :=
  match s with
  | EmptyString => Raise IndexError
  | String c EmptyString => Ok c
  | String _ rest => last_char rest
  end.

Fixpoint but_last (s : string) : string :=
  match s with
  | EmptyString => EmptyString
  | String _ EmptyString => EmptyString
  | String c rest => String c (but_last rest)
  end.

End PyStr.

(** ** Label cleaning ([clean_strings], app_functions.py) *)

Module Labels.
Import PyStr.

(** The loop of [process_string]: [i] is the index [enumerate] hands out,
    [cleaned] the list built so far; [break] returns it as it is. *)
Fixpoint clean_loop (i : nat) (words cleaned : list string) : list string :=
  match words with
  | [] => cleaned
  | word :: rest =>
      if Nat.eqb i 0 then clean_loop (S i) rest (cleaned ++ [word])
      else if any_isdigit word then cleaned
      else clean_loop (S i) rest (cleaned ++ [word])
  end.

Definition process_string (s : string) : string :=
  let words := split s in
  let cleaned_words := clean_loop 0 words [] in
  strip (join " " cleaned_words).

(** The words the loop keeps once it is past the first one: those before
    the first word with a digit in it. *)
Fixpoint take_clean (words : list string) : list string :=
  match words with
  | [] => []
  | w :: rest => if any_isdigit w then [] else w :: take_clean rest
  end.

Definition kept (words : list string) : list string :=
  match words with
  | [] => []
  | w :: rest => w :: take_clean rest
  end.

(** [gdf[new_column_name] = gdf[column_name].apply(process_string)]: the new
    column, from the old one. *)
Definition clean_strings (column : list string) : list string :=
  map process_string column.

End Labels.

(** ** Intensity classifier (app_functions.py) *)

Module Intensity.

(** A bound of a table row: a finite number, or [float('inf')] / [np.inf]. *)
Inductive bound : Type :=
| Fin (q : Q)
| Inf.

Definition Qlt_bool (x y : Q) : bool :=
  (Qnum x * QDen y <? Qnum y * QDen x)%Z.

(** [b <= x], [x < b] and [b > x] for a bound [b] and a finite number [x]. *)
Definition bound_le (b : bound) (x : Q) : bool :=
  match b with
  | Fin q => Qle_bool q x
  | Inf => false
  end.

Definition lt_bound (x : Q) (b : bound) : bool :=
  match b with
  | Fin q => Qlt_bool x q
  | Inf => true
  end.

Definition bound_gt (b : bound) (x : Q) : bool := lt_bound x b.

Definition ge_bound (x : Q) (b : bound) : bool := bound_le b x.

(** A table row: two bounds, the category name and the category number. *)
Definition row : Type := bound * bound * string * Z.

Definition category : Type := string * Z.

Definition unknown : category := ("Unknown", (-999)%Z).

(** Wind speed thresholds in knots: (lower, upper, name, number). *)
Definition ws_categories : list row :=
  [ (Fin 0,   Fin 34,  "Tropical Depression", (-1)%Z);
    (Fin 34,  Fin 63,  "Tropical Storm", 0%Z);
    (Fin 64,  Fin 82,  "Category 1", 1%Z);
    (Fin 83,  Fin 95,  "Category 2", 2%Z);
    (Fin 96,  Fin 112, "Category 3", 3%Z);
    (Fin 113, Fin 136, "Category 4", 4%Z);
    (Fin 137, Inf,     "Category 5", 5%Z) ].

(** The [for] loop of [wind_speed_to_category]:
    [if lower_bound <= wind_speed < upper_bound: return ...]. *)
Fixpoint wind_scan (table : list row) (wind_speed : Q) : category :=
  match table with
  | [] => unknown
  | (lower_bound, upper_bound, category_name, category_number) :: rest =>
      if bound_le lower_bound wind_speed && lt_bound wind_speed upper_bound
      then (category_name, category_number)
      else wind_scan rest wind_speed
  end.

Definition wind_speed_to_category (wind_speed : Q) : category :=
  wind_scan ws_categories wind_speed.

(** Central pressure thresholds in mb: (upper, lower, name, number). *)
Definition cp_categories : list row :=
  [ (Inf,     Fin 990, "Tropical Storm", 0%Z);
    (Fin 990, Fin 980, "Category 1", 1%Z);
    (Fin 980, Fin 965, "Category 2", 2%Z);
    (Fin 965, Fin 945, "Category 3", 3%Z);
    (Fin 945, Fin 920, "Category 4", 4%Z);
    (Fin 920, Fin 0,   "Category 5", 5%Z) ].

(** The [for] loop of [pressure_to_category]:
    [if upper_bound > central_pressure >= lower_bound: return ...]. *)
Fixpoint pressure_scan (table : list row) (central_pressure : Q) : category :=
  match table with
  | [] => unknown
  | (upper_bound, lower_bound, category_name, category_number) :: rest =>
      if bound_gt upper_bound central_pressure && ge_bound central_pressure lower_bound
      then (category_name, category_number)
      else pressure_scan rest central_pressure
  end.

Definition pressure_to_category (central_pressure : Q) : category :=
  pressure_scan cp_categories central_pressure.

(** The ordinal severity of a category is its number. *)
Definition severity (c : category) : Z := snd c.

(** [category_colors] of [category_to_color]. *)
Definition category_colors : gmap string string :=
  <["Tropical Depression" := "green"]>
  (<["Tropical Storm" := "blue"]>
  (<["Category 1" := "yellow"]>
  (<["Category 2" := "orange"]>
  (<["Category 3" := "red"]>
  (<["Category 4" := "darkred"]>
  (<["Category 5" := "magenta"]>
  (<["Unknown" := "gray"]> ∅))))))).

(** [category_colors.get(category, 'gray')] *)
Definition category_to_color (category_name : string) : string :=
  default "gray" (category_colors !! category_name).


End Intensity.

(** ** Radius table (app_functions.py) *)

Module RadiusTable.

Open Scope Z_scope.

(** One basin's row of the table: forecast hour to radius in nautical miles,
    for the hours 12, 24, 36, 48, 60, 72, 96 and 120. *)
Definition hours (r12 r24 r36 r48 r60 r72 r96 r120 : Z) : gmap Z Z :=
  <[12 := r12]> (<[24 := r24]> (<[36 := r36]> (<[48 := r48]>
  (<[60 := r60]> (<[72 := r72]> (<[96 := r96]> (<[120 := r120]> ∅))))))).

(** Forecast period (hours) to 2/3 probability circle radius, per basin.
    WP, IO, SH and SL reuse the AL values. *)
Definition radius_lookup : gmap string (gmap Z Z) :=
  <["AL" := hours 26 41 55 70 88 102 151 220]>
  (<["EP" := hours 26 39 53 65 76 92 119 152]>
  (<["CP" := hours 34 49 66 81 95 120 137 156]>
  (<["WP" := hours 26 41 55 70 88 102 151 220]>
  (<["IO" := hours 26 41 55 70 88 102 151 220]>
  (<["SH" := hours 26 41 55 70 88 102 151 220]>
  (<["SL" := hours 26 41 55 70 88 102 151 220]> ∅)))))).

(** [basin in radius_lookup and forecast_hour in radius_lookup[basin]],
    then the entry; [None] otherwise. *)
Definition get_radius (basin : string) (forecast_hour : Z) : option Z :=
  match radius_lookup !! basin with
  | Some by_hour =>
      match by_hour !! forecast_hour with
      | Some radius => Some radius
      | None => None
      end
  | None => None
  end.

(** The basins and the forecast hours of the table, as the source lists
    them. *)
Definition basins : list string := ["AL"; "EP"; "CP"; "WP"; "IO"; "SH"; "SL"].

Definition forecast_hours : list Z := [12; 24; 36; 48; 60; 72; 96; 120].

End RadiusTable.

(** ** Cone builder (app_functions.py) *)

Module ConeBuilder.
Import RadiusTable.

(** A coordinate reference system, by its EPSG code. *)
Inductive CRS : Type :=
| EPSG (code : Z).

#[global] Instance CRS_eq_dec : EqDecision CRS.
Proof. solve_decision. Defined.

(** The geometry library under the frames (shapely, pyproj), as the cone
    builder uses it. *)
Class Geometry (G : Type) : Type := {
  (** [geom.buffer(distance)] *)
  buffer : G -> Z -> G;
  (** [geom.convex_hull] *)
  convex_hull : G -> G;
  (** [a.union(b)] *)
  union : G -> G -> G;
  (** [shapely.ops.unary_union(geoms)] *)
  unary_union : list G -> G;
  (** the reprojection [to_crs] applies to one geometry *)
  transform : CRS -> CRS -> G -> G;
  (** the UTM zone pyproj finds for the bounds of the geometries, if any *)
  utm_of_bounds : list G -> option CRS;
  (** [geom.is_empty] *)
  geom_is_empty : G -> bool;
  (** [a.covers(b)]: no point of [b] is outside [a] *)
  covers : G -> G -> Prop
}.

(** What the cone builder relies on, true of exact planar geometry. *)
Class GeometryLaws (G : Type) `{Geometry G} : Prop := {
  unary_union_nil_is_empty : geom_is_empty (unary_union []) = true;
  transform_is_empty : forall src dst g,
      geom_is_empty (transform src dst g) = geom_is_empty g;
  covers_refl : forall g, covers g g;
  covers_trans : forall a b c, covers a b -> covers b c -> covers a c;
  convex_hull_covers : forall g, covers (convex_hull g) g;
  union_covers_l : forall a b, covers (union a b) a;
  union_covers_r : forall a b, covers (union a b) b;
  unary_union_covers : forall g gs, In g gs -> covers (unary_union gs) g
}.

(** One forecast point of an a-deck frame: the columns the cone builder
    reads. *)
Record ForecastRow (G : Type) : Type := {
  Basin : string;
  ModelName : string;
  ForecastHour : Z;
  geometry : G
}.

Arguments Basin {G} _.
Arguments ModelName {G} _.
Arguments ForecastHour {G} _.
Arguments geometry {G} _.

(** A (Geo)DataFrame: its column labels, its rows and its CRS. *)
Record GeoDataFrame (R : Type) : Type := {
  columns : list string;
  rows : list R;
  crs : option CRS
}.

Arguments columns {R} _.
Arguments rows {R} _.
Arguments crs {R} _.

(** [gpd.GeoDataFrame()] *)
Definition empty_frame {R : Type} : GeoDataFrame R :=
  {| columns := []; rows := []; crs := None |}.

(** [df.empty]: some axis has length 0. *)
Definition empty {R : Type} (df : GeoDataFrame R) : bool :=
  match rows df, columns df with
  | [], _ => true
  | _, [] => true
  | _, _ => false
  end.

(** A column must be there to be read. *)
Definition require_column {R : Type} (label : string) (df : GeoDataFrame R) : result unit :=
  if decide (label ∈ columns df) then Ok tt else Raise (KeyError label).

(** [df[df[label] == value]] for a string column. *)
Definition select_eq {R : Type} (label : string) (field : R -> string)
    (value : string) (df : GeoDataFrame R) : result (GeoDataFrame R) :=
  _ ← require_column label df;
  Ok {| columns := columns df;
        rows := filter (fun r => field r = value) (rows df);
        crs := crs df |}.

(** [df.sort_values(by=label)] for an integer column, ascending. Rows with
    equal keys keep their order here; pandas leaves that order open. *)
Fixpoint insert_sorted {R : Type} (key : R -> Z) (r : R) (sorted : list R) : list R :=
  match sorted with
  | [] => [r]
  | x :: rest =>
      if (key r <=? key x)%Z then r :: sorted
      else x :: insert_sorted key r rest
  end.

Definition sort_values {R : Type} (label : string) (key : R -> Z)
    (df : GeoDataFrame R) : result (GeoDataFrame R) :=
  _ ← require_column label df;
  Ok {| columns := columns df;
        rows := foldr (insert_sorted key) [] (rows df);
        crs := crs df |}.

(** Ordered by preference. *)
Definition models_to_try : list string :=
  ["OFCL"; "OFCI"; "AEMN"; "AVNO"; "AVNI"; "AVNX"; "EGRR"; "EGRI"; "EGR2";
   "UKM"; "UKX"; "UKMI"; "UKXI"; "UKM2"; "UKX2"; "HWRF"; "HWFI"; "HWF2"].

Section Builder.
Context {G : Type} `{Geometry G}.

(** The [for model in models_to_try] loop; [ofcl_gdf] is the variable as
    the previous iteration left it, unbound before the first one. *)
Fixpoint try_models (models : list string) (adeck_gdf : GeoDataFrame (ForecastRow G))
    (ofcl_gdf : option (GeoDataFrame (ForecastRow G)))
  : result (GeoDataFrame (ForecastRow G)) :=
  match models with
  | [] =>
      match ofcl_gdf with
      | Some df => Ok df
      | None => Raise NameError
      end
  | model :: rest =>
      selected ← select_eq "ModelName" ModelName model adeck_gdf;
      if negb (empty selected) then Ok selected
      else try_models rest adeck_gdf (Some selected)
  end.

Definition filter_adeck_gdf_for_official_model
    (adeck_gdf : GeoDataFrame (ForecastRow G))
  : result (GeoDataFrame (ForecastRow G)) :=
  ofcl_gdf ← try_models models_to_try adeck_gdf None;
  if empty ofcl_gdf then Ok empty_frame else Ok ofcl_gdf.

(** [gdf.estimate_utm_crs()] *)
Definition estimate_utm_crs (gdf : GeoDataFrame (ForecastRow G)) : result CRS :=
  if decide ("geometry" ∈ columns gdf) then
    match crs gdf with
    | None => Raise (RuntimeError "crs must be set to estimate UTM CRS.")
    | Some _ =>
        match utm_of_bounds (map geometry (rows gdf)) with
        | Some utm => Ok utm
        | None => Raise (RuntimeError "Unable to determine UTM CRS")
        end
    end
  else Raise AttributeError.

(** [gdf.to_crs(target)], with the way a row carries its geometry. *)
Definition to_crs {R : Type} (reproject : CRS -> CRS -> R -> R) (target : CRS)
    (gdf : GeoDataFrame R) : result (GeoDataFrame R) :=
  if decide ("geometry" ∈ columns gdf) then
    match crs gdf with
    | None => Raise ValueError
    | Some source =>
        Ok {| columns := columns gdf;
              rows := map (reproject source target) (rows gdf);
              crs := Some target |}
    end
  else Raise AttributeError.

Definition reproject_row (source target : CRS) (row : ForecastRow G) : ForecastRow G :=
  {| Basin := Basin row;
     ModelName := ModelName row;
     ForecastHour := ForecastHour row;
     geometry := transform source target (geometry row) |}.

(** The [for _, row in ofcl_gdf.iterrows()] loop: a row with no radius is
    passed over, the others are buffered by their radius in metres. *)
Fixpoint buffer_rows (ofcl_rows : list (ForecastRow G)) (buffered_geometries : list G)
  : list G :=
  match ofcl_rows with
  | [] => buffered_geometries
  | row :: rest =>
      let forecast_hour := ForecastHour row in
      let basin := Basin row in
      match get_radius basin forecast_hour with
      | None => buffer_rows rest buffered_geometries
      | Some radius_nm =>
          let radius_m := (radius_nm * 1852)%Z in
          let buffer_geom := buffer (geometry row) radius_m in
          buffer_rows rest (buffered_geometries ++ [buffer_geom])
      end
  end.

(** The convex hull between each pair of consecutive buffers, over
    [zip(buffered_geometries, buffered_geometries[1:])]. *)
Definition convex_hull_segments (buffered_geometries : list G) : list G :=
  map (fun pair : G * G =>
         let (first, second) := pair in
         convex_hull (union (convex_hull first) (convex_hull second)))
      (zip buffered_geometries (tail buffered_geometries)).

(** The merged polygon, in the metric frame. *)
Definition final_cone_polygon (buffered_geometries : list G) : G :=
  unary_union (convex_hull_segments buffered_geometries).

Definition EPSG_4326 : CRS := EPSG 4326.

Definition create_uncertainty_cone (input_gdf : GeoDataFrame (ForecastRow G))
  : result (GeoDataFrame G) :=
  ofcl_gdf ← filter_adeck_gdf_for_official_model input_gdf;
  ofcl_gdf ← sort_values "ForecastHour" ForecastHour ofcl_gdf;
  utm ← estimate_utm_crs ofcl_gdf;
  ofcl_gdf ← to_crs reproject_row utm ofcl_gdf;
  _ ← (if bool_decide (rows ofcl_gdf = []) then Ok tt
       else (_ ← require_column "ForecastHour" ofcl_gdf;
             require_column "Basin" ofcl_gdf));
  let buffered_geometries := buffer_rows (rows ofcl_gdf) [] in
  match buffered_geometries with
  | [] => Ok empty_frame
  | _ :: _ =>
      let cone_gdf :=
        {| columns := ["geometry"];
           rows := [final_cone_polygon buffered_geometries];
           crs := crs ofcl_gdf |} in
      to_crs transform EPSG_4326 cone_gdf
  end.

(** *** The track and the cone, for stating what the builder does *)

(** A frame with other rows under the same header. *)
Definition with_rows (df : GeoDataFrame (ForecastRow G)) (new_rows : list (ForecastRow G)) : GeoDataFrame (ForecastRow G) :=
  {| columns := columns df; rows := new_rows; crs := crs df |}.

(** The rows of the first model of the list that has any. *)
Fixpoint first_match (models : list string) (track_rows : list (ForecastRow G))
  : list (ForecastRow G) :=
  match models with
  | [] => []
  | model :: rest =>
      match filter (fun r => ModelName r = model) track_rows with
      | [] => first_match rest track_rows
      | selected => selected
      end
  end.

(** The authoritative track of a frame. *)
Definition authoritative (df : GeoDataFrame (ForecastRow G)) : list (ForecastRow G) :=
  first_match models_to_try (rows df).

(** A row is usable when the radius table has an entry for it. *)
Definition usable (row : ForecastRow G) : bool :=
  match get_radius (Basin row) (ForecastHour row) with
  | Some _ => true
  | None => false
  end.

Definition usable_points (df : GeoDataFrame (ForecastRow G)) : list (ForecastRow G) :=
  List.filter usable (authoritative df).

(** The authoritative track in ascending forecast hour. *)
Definition sorted_track (df : GeoDataFrame (ForecastRow G)) : list (ForecastRow G) :=
  foldr (insert_sorted ForecastHour) [] (authoritative df).

(** The buffers of a frame whose track was reprojected from [source] to
    [utm]. *)
Definition track_buffers (source utm : CRS) (df : GeoDataFrame (ForecastRow G)) : list G :=
  buffer_rows (map (reproject_row source utm) (sorted_track df)) [].

(** The buffer of one row, if the radius table has its basin and hour. *)
Definition buffer_of_row (row : ForecastRow G) : option G :=
  match get_radius (Basin row) (ForecastHour row) with
  | Some radius_nm => Some (buffer (geometry row) (radius_nm * 1852)%Z)
  | None => None
  end.

(** The cone of a frame, as a geometry: empty when every row of it is. *)
Definition cone_is_empty (cone_gdf : GeoDataFrame G) : bool :=
  forallb geom_is_empty (rows cone_gdf).

End Builder.

End ConeBuilder.

(** ** A geometry to run the cone builder on

    Shapes as the expressions that build them: enough to run the builder
    on a concrete track and to read off which operations made the cone. *)

Module Symbolic.
Import ConeBuilder.

#[warning="-register-all"]
Inductive shape : Type :=
| Point (x y : Q)
| Buffer (g : shape) (distance : Z)
| ConvexHull (g : shape)
| Union (a b : shape)
| UnaryUnion (gs : list shape)
| Transform (source target : CRS) (g : shape).

(** Emptiness, for shapes buffered by the positive distances of the radius
    table: a point is not empty, a union is empty when all its parts are,
    and the other operations keep a shape empty or not as it was. *)
Fixpoint is_empty (g : shape) : bool :=
  match g with
  | Point _ _ => false
  | Buffer g _ => is_empty g
  | ConvexHull g => is_empty g
  | Union a b => is_empty a && is_empty b
  | UnaryUnion gs => forallb is_empty gs
  | Transform _ _ g => is_empty g
  end.

(** Coverage, as far as the way a shape was built shows it. *)
Inductive covered : shape -> shape -> Prop :=
| covered_refl g : covered g g
| covered_trans a b c : covered a b -> covered b c -> covered a c
| covered_hull g : covered (ConvexHull g) g
| covered_union_l a b : covered (Union a b) a
| covered_union_r a b : covered (Union a b) b
| covered_unary g gs : In g gs -> covered (UnaryUnion gs) g.

(** The bounds of a list of points, as (minx, miny, maxx, maxy). *)
Fixpoint total_bounds (gs : list shape) : option (Q * Q * Q * Q) :=
  match gs with
  | [] => None
  | Point x y :: rest =>
      match total_bounds rest with
      | Some (minx, miny, maxx, maxy) =>
          Some (Qmin x minx, Qmin y miny, Qmax x maxx, Qmax y maxy)
      | None =>
          match rest with
          | [] => Some (x, y, x, y)
          | _ :: _ => None
          end
      end
  | _ :: _ => None
  end.

(** The UTM zone of the centre of the bounds: EPSG 326xx north of the
    equator, 327xx south of it, none beyond 84 N or 80 S. *)
Definition utm_zone (gs : list shape) : option CRS :=
  match total_bounds gs with
  | None => None
  | Some (minx, miny, maxx, maxy) =>
      let x_center := ((minx + maxx) / 2)%Q in
      let y_center := ((miny + maxy) / 2)%Q in
      let zone := (Qfloor ((x_center + 180) / 6) mod 60 + 1)%Z in
      if Qle_bool 0 y_center then
        if Qle_bool y_center 84 then Some (EPSG (32600 + zone)) else None
      else
        if Qle_bool (-80) y_center then Some (EPSG (32700 + zone)) else None
  end.

#[global] Instance shape_geometry : Geometry shape := {|
  buffer := Buffer;
  convex_hull := ConvexHull;
  union := Union;
  unary_union := UnaryUnion;
  transform := Transform;
  utm_of_bounds := utm_zone;
  geom_is_empty := is_empty;
  covers := covered
|}.

#[global] Instance shape_geometry_laws : GeometryLaws shape.
Proof.
  split; try reflexivity.
  - exact covered_refl.
  - exact covered_trans.
  - exact covered_hull.
  - exact covered_union_l.
  - exact covered_union_r.
  - exact covered_unary.
Qed.

(** A track near Florida in basin AL. *)
Definition track_row (model : string) (hour : Z) (lon lat : Q) : ForecastRow shape :=
  {| Basin := "AL"; ModelName := model; ForecastHour := hour;
     geometry := Point lon lat |}.

Definition track_columns : list string :=
  ["Basin"; "ModelName"; "ForecastHour"; "Latitude"; "Longitude"; "geometry"].

Definition track (track_rows : list (ForecastRow shape)) : GeoDataFrame (ForecastRow shape) :=
  {| columns := track_columns; rows := track_rows; crs := Some EPSG_4326 |}.

(** Only the tracker's own fix, no forecast of a preferred model. *)
Definition carq_only : GeoDataFrame (ForecastRow shape) :=
  track [track_row "CARQ" 0 (-80) 25; track_row "XTRP" 12 (-81) 26].

(** Only an extrapolated track, at hours the table has. *)
Definition xtrp_only : GeoDataFrame (ForecastRow shape) :=
  track [track_row "XTRP" 12 (-81) 26; track_row "XTRP" 24 (-82) 27].

(** One official point, at an hour the table has. *)
Definition one_point : GeoDataFrame (ForecastRow shape) :=
  track [track_row "CARQ" 0 (-80) 25; track_row "OFCL" 12 (-81) 26].

(** Official points at hours 24 and 12, and one at hour 0, which the table
    does not have. *)
Definition two_points : GeoDataFrame (ForecastRow shape) :=
  track [track_row "OFCL" 24 (-82) 27; track_row "OFCL" 0 (-80) 25;
         track_row "OFCL" 12 (-81) 26; track_row "AVNO" 12 (-81) 26].

End Symbolic.

(** ** Storm name inference ([extract_storm_info], get_Forecast_Data_V3.py)

    The name is the first component of what [extract_storm_info] returns;
    the dates, which the name does not depend on, are left out. The file is
    the list of its lines. *)

Module StormName.
Import PyStr.

(** List of known basin codes *)
Definition basin_codes : list string := ["AL"; "EP"; "CP"; "WP"; "IO"; "SH"].

(** Set of number words up to 20 *)
Definition number_words_set : gset string :=
  list_to_set
    ["ONE"; "TWO"; "THREE"; "FOUR"; "FIVE"; "SIX"; "SEVEN"; "EIGHT"; "NINE";
     "TEN"; "ELEVEN"; "TWELVE"; "THIRTEEN"; "FOURTEEN"; "FIFTEEN"; "SIXTEEN";
     "SEVENTEEN"; "EIGHTEEN"; "NINETEEN"; "TWENTY"].

(** A [dict] from names to counts, in insertion order. *)
Definition name_dict : Type := list (string * nat).

(** [d[k] = d.get(k, 0) + 1] *)
Fixpoint dict_incr (k : string) (d : name_dict) : name_dict :=
  match d with
  | [] => [(k, 1%nat)]
  | (k', v) :: rest =>
      if String.eqb k' k then (k', S v) :: rest
      else (k', v) :: dict_incr k rest
  end.

(** [{k: v for k, v in d.items() if keep(k)}] *)
Definition dict_filter (keep : string -> bool) (d : name_dict) : name_dict :=
  List.filter (fun kv => keep (fst kv)) d.

Definition dict_keys (d : name_dict) : list string := map fst d.

(** One line of the file, in the loop that fills the dictionary. *)
Definition read_line (storm_name_dict : name_dict) (line : string) : name_dict :=
  let columns := split (strip line) in
  if (28 <=? length columns)%nat then
    let potential_name :=
      upper (rstrip_by (Ascii.eqb ",") (strip (nth 27 columns EmptyString))) in
    if negb (is_empty potential_name) then dict_incr potential_name storm_name_dict
    else storm_name_dict
  else storm_name_dict.

(** [storm_names.remove(x)]: the first occurrence goes. *)
Fixpoint list_remove (x : string) (l : list string) : list string :=
  match l with
  | [] => []
  | y :: rest => if String.eqb y x then rest else y :: list_remove x rest
  end.

(** The inner loop over [basin_codes] for one name: the first code the name
    ends with and that leaves letters only is cut off. *)
Fixpoint strip_basin_code (codes : list string) (name : string) : string :=
  match codes with
  | [] => name
  | basin_code :: rest =>
      if endswith name basin_code then
        let name_without_basin :=
          strip (slice_to_minus (String.length basin_code) name) in
        if isalpha name_without_basin then name_without_basin
        else strip_basin_code rest name
      else strip_basin_code rest name
  end.

(** The branch for several names. *)
Definition choose_among (storm_names : list string) : string :=
  let cleaned_names : gset string :=
    list_to_set (map (strip_basin_code basin_codes) storm_names) in
  match elements cleaned_names with
  | [cleaned_name] => cleaned_name
  | _ => List.last storm_names EmptyString
  end.

Definition choose_name (storm_names : list string) : string :=
  match storm_names with
  | [] => "DISTURBANCE"
  | _ :: _ =>
      if bool_decide (storm_names = ["INVEST"]) then "INVEST"
      else
        let storm_names :=
          if bool_decide ("INVEST" ∈ storm_names)
          then list_remove "INVEST" storm_names else storm_names in
        match storm_names with
        | [only] => only
        | _ => choose_among storm_names
        end
  end.

Definition extract_storm_info (lines : list string) : string :=
  let storm_name_dict := fold_left read_line lines [] in
  (* Step 1: remove basin codes from the dictionary keys *)
  let storm_name_dict :=
    dict_filter (fun k => negb (bool_decide (k ∈ basin_codes))) storm_name_dict in
  (* Step 2: remove entries that contain digits *)
  let storm_name_dict :=
    dict_filter (fun k => negb (any_isdigit k)) storm_name_dict in
  (* Step 3: remove entries that are in number_words *)
  let storm_name_dict :=
    dict_filter (fun k => negb (bool_decide (k ∈ number_words_set))) storm_name_dict in
  let storm_names := dict_keys storm_name_dict in
  title (choose_name storm_names).

(** *** The candidates and the choice, for stating what the inference does *)

(** The name a line proposes, if it proposes one. *)
Definition potential_name (line : string) : option string :=
  let columns := split (strip line) in
  if (28 <=? length columns)%nat then
    let name := upper (rstrip_by (Ascii.eqb ",") (strip (nth 27 columns EmptyString))) in
    if is_empty name then None else Some name
  else None.

(** All proposed names of a file, line by line. *)
Definition potential_names (lines : list string) : list string :=
  omap potential_name lines.

(** How often a name is proposed. *)
Definition occurrences (name : string) (lines : list string) : nat :=
  length (List.filter (String.eqb name) (potential_names lines)).

(** The distinct elements of a list, each where it first appears. *)
Fixpoint first_seen (l : list string) : list string :=
  match l with
  | [] => []
  | x :: rest => x :: List.filter (fun y => negb (String.eqb y x)) (first_seen rest)
  end.

(** A name stays a candidate unless it is a basin code, has a digit in it,
    or is a number word. *)
Definition is_candidate (k : string) : bool :=
  negb (bool_decide (k ∈ basin_codes)) && negb (any_isdigit k)
  && negb (bool_decide (k ∈ number_words_set)).

Definition candidates (lines : list string) : list string :=
  List.filter is_candidate (first_seen (potential_names lines)).

(** The form all names share once their basin code is cut off, if they
    share one. *)
Definition common_form (names : list string) : option string :=
  match map (strip_basin_code basin_codes) names with
  | [] => None
  | c :: rest => if forallb (String.eqb c) rest then Some c else None
  end.

(** The name inferred from the candidates, in the order they first
    appeared. *)
Definition infer_name (names : list string) : string :=
  match names with
  | [] => "DISTURBANCE"
  | _ :: _ =>
      if bool_decide (names = ["INVEST"]) then "INVEST"
      else
        match list_remove "INVEST" names with
        | [only] => only
        | others =>
            match common_form others with
            | Some c => c
            | None => List.last others EmptyString
            end
        end
  end.

Definition add_key (keys : list string) (k : string) : list string :=
  if bool_decide (k ∈ keys) then keys else (keys ++ [k])%list.

(** C7 as stated, on one file: the name is the candidate proposed more
    often than every other candidate. *)
Definition picks_majority (lines : list string) : Prop :=
  forall name,
    name ∈ candidates lines ->
    (forall other, other ∈ candidates lines -> other <> name ->
                   (occurrences other lines < occurrences name lines)%nat) ->
    extract_storm_info lines = title name.

(** A name with at least one character and no digit. *)
Definition proper_name (name : string) : Prop :=
  name <> EmptyString /\ any_isdigit name = false.

(** A line of an a-deck file for a storm that carries [name] in its 28th
    field. *)
Definition adeck_line (tau name : string) : string :=
  "AL, 09, 2024092500, 03, OFCL, " ++ tau ++
  ", 253N, 845W, 65, 985, HU, 34, NEQ, 100, 80, 40, 90, 1008, 150, 20, 80, 0, L, 0, XXX, 330, 8, "
  ++ name ++ ", D, 12, NEQ, 0, 0, 0, 0" ++ String (ascii_of_N 10) EmptyString.

(** [HELENE] on three lines, then [HELEN] on one. *)
Definition helene_file : list string :=
  [adeck_line "0" "HELENE"; adeck_line "12" "HELENE"; adeck_line "24" "HELENE";
   adeck_line "36" "HELEN"].

End StormName.

(** ** Coordinate parser ([parse_lat_lon], app_functions.py) *)

Module LatLon.
Import PyStr.

(** What [float] arithmetic the parser needs: [float(s)] for a string,
    which returns a float or raises [ValueError] ([None] here), division by
    10.0 and negation. *)
Class FloatOps (F : Type) : Type := {
  float_of_str : string -> option F;
  div10 : F -> F;
  fneg : F -> F
}.

(** The values a cell of the Latitude or Longitude column can hold. *)
Inductive pyvalue (F : Type) : Type :=
| PyStr (s : string)
| PyFloat (x : F)
| PyInt (n : Z)
| PyNone.

Arguments PyStr {F} s.
Arguments PyFloat {F} x.
Arguments PyInt {F} n.
Arguments PyNone {F}.

Section Parser.
Context {F : Type} `{FloatOps F}.

(** [float(s)] *)
Definition py_float (s : string) : result F :=
  match float_of_str s with
  | Some x => Ok x
  | None => Raise ValueError
  end.

Definition is_direction (c : ascii) : bool :=
  bool_decide (c ∈ ["N"; "S"; "E"; "W"]%char).

(** [value and value[-1] in ['N', 'S', 'E', 'W']]: [value[-1]] is read
    only when [value] is not empty. *)
Definition has_direction (value : string) : result bool :=
  if is_empty value then Ok false
  else direction ← last_char value; Ok (is_direction direction).

Definition parse_lat_lon (value : pyvalue F) : result (option F) :=
  match value with
  | PyStr value =>
      let value := strip value in
      suffixed ← has_direction value;
      if (suffixed : bool) then
        direction ← last_char value;
        match py_float (but_last value) with
        | Ok x =>
            let degrees := div10 x in
            let degrees :=
              if bool_decide (direction ∈ ["S"; "W"]%char) then fneg degrees
              else degrees in
            Ok (Some degrees)
        | Raise ValueError => Ok None
        | Raise e => Raise e
        end
      else if negb (is_empty value) then
        match py_float value with
        | Ok x => Ok (Some (div10 x))
        | Raise ValueError => Ok None
        | Raise e => Raise e
        end
      else Ok None
  | _ => Ok None
  end.

End Parser.

(** Floats to run the parser on: rationals, read from unsigned decimal
    integers. *)
Fixpoint digits_value (acc : Z) (s : string) : option Z :=
  match s with
  | EmptyString => Some acc
  | String c rest =>
      let n := N_of_ascii c in
      if ((48 <=? n) && (n <=? 57))%N
      then digits_value (10 * acc + Z.of_N (n - 48)) rest
      else None
  end.

Definition decimal_of_str (s : string) : option Q :=
  if is_empty s then None
  else match digits_value 0 s with
       | Some z => Some (inject_Z z)
       | None => None
       end.

#[global] Instance decimal_floats : FloatOps Q := {|
  float_of_str := decimal_of_str;
  div10 := fun x => Qred (x / 10);
  fneg := Qopp
|}.

End LatLon.

(** ** Reading one line of an a-deck file ([read_adeck_dat_file_to_gdf],
    app_functions.py)

    The loop body that turns a line into a record, before pandas takes
    over. *)

Module AdeckReader.
Import PyStr.

(** Column names based on ATCF A-deck format *)
Definition columns : list string :=
  ["Basin"; "CycloneNumber"; "DateTime"; "ModelNumber"; "ModelName"; "ForecastHour";
   "Latitude"; "Longitude"; "MaxWindSpeed"; "MinPressure";
   "WindRad1"; "WindRad2"; "WindRad3"; "WindRad4"; "StormType";
   "Quadrant1"; "Quadrant2"; "Quadrant3"; "Quadrant4";
   "Radius1"; "Radius2"; "Radius3"; "Radius4";
   "StormName"; "Unused1"; "Unused2"].

(** [s.split(sep)] for a separator of one character: [split_on_aux] gives
    the field that starts the string and the fields after it. *)
Fixpoint split_on_aux (sep : ascii) (s : string) : string * list string :=
  match s with
  | EmptyString => (EmptyString, [])
  | String c rest =>
      let '(w, ws) := split_on_aux sep rest in
      if Ascii.eqb c sep then (EmptyString, w :: ws) else (String c w, ws)
  end.

Definition split_on (sep : ascii) (s : string) : list string :=
  let '(w, ws) := split_on_aux sep s in w :: ws.

(** [for i in range(min(num_fields, len(columns))):
       record[columns[i]] = fields[i]] *)
Fixpoint fill_columns (names fields : list string) (record : gmap string string)
  : gmap string string :=
  match names, fields with
  | name :: names', field :: fields' =>
      fill_columns names' fields' (<[name := field]> record)
  | _, _ => record
  end.

(** [for j in range(len(columns), num_fields):
       record[f'ExtraField{j - len(columns) + 1}'] = fields[j]],
    from index [j] on, [extra_fields] being [fields[j:]]. *)
Fixpoint fill_extra (j : nat) (extra_fields : list string) (record : gmap string string)
  : gmap string string :=
  match extra_fields with
  | [] => record
  | field :: rest =>
      fill_extra (S j) rest
        (<["ExtraField" ++ pretty (j - length columns + 1)%nat := field]> record)
  end.

Definition record_of_fields (fields : list string) : gmap string string :=
  let record := fill_columns columns fields ∅ in
  let num_fields := length fields in
  if (length columns <? num_fields)%nat
  then fill_extra (length columns) (drop (length columns) fields) record
  else record.

(** The body of the loop over the lines: [None] when the line is skipped. *)
Definition record_of_line (line : string) : option (gmap string string) :=
  let line := strip line in
  if is_empty line then None
  else
    let fields := split_on "," line in
    let fields := map strip fields in
    Some (record_of_fields fields).

(** The key of the extra field at position [j]. *)
Definition extra_key (j : nat) : string :=
  "ExtraField" ++ pretty (j - length columns + 1)%nat.

(** The key a field is stored under, by its position. *)
Definition field_key (i : nat) : string :=
  match columns !! i with
  | Some name => name
  | None => "ExtraField" ++ pretty (i - length columns + 1)%nat
  end.

End AdeckReader.

(** ** The forecast hour of a run ([main], app.py and
    intercept_and_alert_V3.py) *)

Module Schedule.

(** A [datetime]: the day as a day number, and the time of day. *)
Record datetime : Type := {
  day : Z;
  hour : Z;
  minute : Z;
  second : Z;
  microsecond : Z
}.

(** The forecast issuance hours *)
Definition forecast_hours : list Z := [0; 6; 12; 18]%Z.

(** [max(valid_hours)] *)
Definition max_of (first : Z) (others : list Z) : Z := foldl Z.max first others.

(** Adjust timestamp to the closest previous forecast hour if needed *)
Definition adjust_timestamp (timestamp_utc : datetime) : datetime :=
  let current_hour := hour timestamp_utc in
  let valid_hours := List.filter (fun h => (h <=? current_hour)%Z) forecast_hours in
  match valid_hours with
  | first :: others =>
      let latest_forecast_hour := max_of first others in
      {| day := day timestamp_utc; hour := latest_forecast_hour;
         minute := 0; second := 0; microsecond := 0 |}
  | [] =>
      let latest_forecast_hour := 18%Z in
      {| day := (day timestamp_utc - 1)%Z; hour := latest_forecast_hour;
         minute := 0; second := 0; microsecond := 0 |}
  end.

(** Microseconds since midnight of day 0, to compare two datetimes. *)
Definition instant (t : datetime) : Z :=
  ((((day t * 24 + hour t) * 60 + minute t) * 60 + second t) * 1000000
   + microsecond t)%Z.

(** The fields of a [datetime] are in their ranges. *)
Definition well_formed (t : datetime) : Prop :=
  (0 <= hour t < 24 /\ 0 <= minute t < 60 /\ 0 <= second t < 60
   /\ 0 <= microsecond t < 1000000)%Z.

End Schedule.

(** ** The storm directory ([download_and_update_storm_data],
    get_Forecast_Data_V3.py)

    What the function does to the table of storm_adeck_directory.csv,
    between reading it and writing it back. *)

Module StormDirectory.
Import PyStr.

(** One row of the directory. A row read from a file written before the
    column 'adeck_path_parquet' existed has no value in it. *)
Record StormRow : Type := {
  Basin : string;
  Storm_Number : Z;
  Storm_Name : string;
  Storm_Start_Date : string;
  Storm_End_Date : string;
  Storm_Year : Z;
  adeck_path : string;
  adeck_path_parquet : option string
}.

(** [int(s)] for a string: whitespace around, a sign, digits, and single
    underscores between digits. *)
Fixpoint int_digits (acc : Z) (after_digit : bool) (s : string) : option Z :=
  match s with
  | EmptyString => if after_digit then Some acc else None
  | String c rest =>
      let n := N_of_ascii c in
      if ((48 <=? n) && (n <=? 57))%N
      then int_digits (10 * acc + Z.of_N (n - 48)) true rest
      else if Ascii.eqb c "_" && after_digit then int_digits acc false rest
      else None
  end.

Definition py_int (s : string) : result Z :=
  let magnitude (digits : string) :=
    match digits with
    | EmptyString => None
    | String _ _ => int_digits 0 false digits
    end in
  let parsed :=
    match strip s with
    | String "+" rest => magnitude rest
    | String "-" rest => Z.opp <$> magnitude rest
    | other => magnitude other
    end in
  match parsed with
  | Some n => Ok n
  | None => Raise ValueError
  end.

(** [s.replace(old, new)] for a non-empty [old]: [skip] counts the
    characters of a match still to pass over. *)
Fixpoint replace_from (old new : string) (skip : nat) (s : string) : string :=
  match s with
  | EmptyString => EmptyString
  | String c rest =>
      match skip with
      | S k => replace_from old new k rest
      | O =>
          if String.prefix old s
          then new ++ replace_from old new (String.length old - 1) rest
          else String c (replace_from old new 0 rest)
      end
  end.

Definition replace (old new s : string) : string := replace_from old new 0 s.

(** [(df['Basin'] == basin) & (df['Storm_Number'] == storm_number)
     & (df['Storm_Year'] == storm_year)], on one row. *)
Definition same_storm (basin : string) (storm_number storm_year : Z) (row : StormRow) : bool :=
  String.eqb (Basin row) basin && (Storm_Number row =? storm_number)%Z
  && (Storm_Year row =? storm_year)%Z.

(** [df.loc[mask, ['Storm_Name', 'Storm_Start_Date', 'Storm_End_Date']] =
     [storm_name, storm_start_date, storm_end_date]], on one row. *)
Definition set_storm (storm_name storm_start_date storm_end_date : string)
    (row : StormRow) : StormRow :=
  {| Basin := Basin row;
     Storm_Number := Storm_Number row;
     Storm_Name := storm_name;
     Storm_Start_Date := storm_start_date;
     Storm_End_Date := storm_end_date;
     Storm_Year := Storm_Year row;
     adeck_path := adeck_path row;
     adeck_path_parquet := adeck_path_parquet row |}.

(** The assignment through [df.loc[mask, ...]], on one row: a row of the
    storm gets the new values, any other row stays. *)
Definition update_row (basin : string) (storm_number storm_year : Z)
    (storm_name storm_start_date storm_end_date : string) (row : StormRow) : StormRow :=
  if same_storm basin storm_number storm_year row
  then set_storm storm_name storm_start_date storm_end_date row
  else row.

(** The table to write back, or [None] when the function returns without
    writing. [dates] is what [extract_storm_info] found: start date, end
    date and year, or nothing when the file has no date. *)
Definition update_storm_directory (df : list StormRow) (file_name storm_name : string)
    (dates : option (string * string * Z)) : result (option (list StormRow)) :=
  let basin := substring 1 2 file_name in
  let storm_number := substring 3 2 file_name in
  match dates with
  | None => Ok None
  | Some (storm_start_date, storm_end_date, storm_year) =>
      storm_number ← py_int storm_number;
      let storm_exists := existsb (same_storm basin storm_number storm_year) df in
      if storm_exists then
        Ok (Some (map (update_row basin storm_number storm_year
                         storm_name storm_start_date storm_end_date) df))
      else
        let new_row :=
          {| Basin := basin;
             Storm_Number := storm_number;
             Storm_Name := storm_name;
             Storm_Start_Date := storm_start_date;
             Storm_End_Date := storm_end_date;
             Storm_Year := storm_year;
             adeck_path := file_name;
             adeck_path_parquet :=
               Some ("./forecast_data_parquet/" ++ replace ".dat" ".parquet" file_name) |} in
        Ok (Some (df ++ [new_row])%list)
  end.

(** The key of a row. *)
Definition storm_key (row : StormRow) : string * Z * Z :=
  (Basin row, Storm_Number row, Storm_Year row).

(** A directory read from a file with three storms. *)
Definition sample_directory : list StormRow :=
  [ {| Basin := "al"; Storm_Number := 9; Storm_Name := "Helene";
       Storm_Start_Date := "2024-09-23 12:00:00"; Storm_End_Date := "2024-09-27 18:00:00";
       Storm_Year := 2024; adeck_path := "aal092024.dat";
       adeck_path_parquet := Some "./forecast_data_parquet/aal092024.parquet" |};
    {| Basin := "ep"; Storm_Number := 9; Storm_Name := "Invest";
       Storm_Start_Date := "2024-09-20 00:00:00"; Storm_End_Date := "2024-09-21 06:00:00";
       Storm_Year := 2024; adeck_path := "aep092024.dat";
       adeck_path_parquet := None |};
    {| Basin := "al"; Storm_Number := 9; Storm_Name := "Ida";
       Storm_Start_Date := "2021-08-26 12:00:00"; Storm_End_Date := "2021-09-02 00:00:00";
       Storm_Year := 2021; adeck_path := "aal092021.dat";
       adeck_path_parquet := None |} ].

End StormDirectory.

(** * Facts about the string primitives *)

Section PyStrFacts.
Import PyStr.

(** The primitives on a few strings. *)
Example split_example :
  split "  AL, 09,   2024092500 " = ["AL,"; "09,"; "2024092500"].
Proof. reflexivity. Qed.

Example split_blank : split "   " = [].
Proof. reflexivity. Qed.

Example strip_example : strip "  253N  " = "253N".
Proof. reflexivity. Qed.

Example rstrip_comma_example : rstrip_by (Ascii.eqb ",") "HELENE,," = "HELENE".
Proof. reflexivity. Qed.

Example title_example : title "hELLO wORLD-foo 12ab" = "Hello World-Foo 12Ab".
Proof. reflexivity. Qed.

Lemma is_empty_true (s : string) : is_empty s = true <-> s = EmptyString.
Proof. destruct s; simpl; split; congruence. Qed.

Lemma split_aux_head_no_space (s : string) :
  any_isspace (fst (split_aux s)) = false.
Proof.
  induction s as [|c s IH]; simpl; [reflexivity|].
  destruct (split_aux s) as [w ws]; simpl in *.
  destruct (isspace c) eqn:Hc; simpl; [reflexivity|].
  rewrite Hc. exact IH.
Qed.

Lemma split_aux_tail_words (s : string) :
  Forall is_word (snd (split_aux s)).
Proof.
  induction s as [|c s IH]; simpl; [constructor|].
  pose proof (split_aux_head_no_space s) as Hw.
  destruct (split_aux s) as [w ws]; simpl in *.
  destruct (isspace c); simpl; [|exact IH].
  destruct w as [|a w]; simpl; [exact IH|].
  constructor; [|exact IH].
  split; [discriminate | exact Hw].
Qed.

Lemma split_words (s : string) : Forall is_word (split s).
Proof.
  unfold split.
  pose proof (split_aux_head_no_space s) as Hw.
  pose proof (split_aux_tail_words s) as Hws.
  destruct (split_aux s) as [w ws]; simpl in *.
  destruct w as [|a w]; simpl; [exact Hws|].
  constructor; [|exact Hws].
  split; [discriminate | exact Hw].
Qed.

Lemma string_app_nil_l (s : string) : EmptyString ++ s = s.
Proof. reflexivity. Qed.

Lemma string_app_cons (c : ascii) (s t : string) :
  String c s ++ t = String c (s ++ t).
Proof. reflexivity. Qed.

Lemma string_app_empty_r (s : string) : s ++ EmptyString = s.
Proof.
  induction s as [|c s IH]; [reflexivity|].
  now rewrite string_app_cons, IH.
Qed.

(** Reading a whitespace-free run off the front of a string. *)
Lemma split_aux_app_word (w rest : string) :
  any_isspace w = false ->
  split_aux (w ++ rest) =
  (w ++ fst (split_aux rest), snd (split_aux rest)).
Proof.
  induction w as [|c w IH]; intros Hw.
  - rewrite !string_app_nil_l. destruct (split_aux rest); reflexivity.
  - simpl in Hw. apply orb_false_iff in Hw as [Hc Hw].
    rewrite !string_app_cons. simpl.
    rewrite (IH Hw), Hc. reflexivity.
Qed.

Lemma split_join_words (ws : list string) :
  Forall is_word ws -> split (join " " ws) = ws.
Proof.
  induction 1 as [|w ws [Hne Hsp] Hws IH]; [reflexivity|].
  destruct ws as [|w' ws].
  - simpl. unfold split.
    rewrite <- (string_app_empty_r w) at 1.
    rewrite (split_aux_app_word w EmptyString Hsp); simpl.
    rewrite string_app_empty_r.
    destruct w; [congruence | reflexivity].
  - change (join " " (w :: w' :: ws)) with (w ++ " " ++ join " " (w' :: ws)).
    remember (join " " (w' :: ws)) as rest eqn:Hrest.
    unfold split in *.
    rewrite (split_aux_app_word _ _ Hsp).
    rewrite string_app_cons, string_app_nil_l.
    change (split_aux (String " " rest))
      with (let '(v, vs) := split_aux rest in
            (EmptyString, if is_empty v then vs else v :: vs)).
    destruct (split_aux rest) as [v vs]. simpl fst; simpl snd.
    rewrite string_app_empty_r, IH.
    destruct w; [congruence | reflexivity].
Qed.

(** What stripping leaves alone. *)
Lemma rstrip_by_no_match (p : ascii -> bool) (w : string) :
  (forall c, p c = true -> isspace c = true) ->
  any_isspace w = false -> rstrip_by p w = w.
Proof.
  intros Hp. induction w as [|c w IH]; simpl; intros Hw; [reflexivity|].
  apply orb_false_iff in Hw as [Hc Hw].
  rewrite (IH Hw).
  destruct (p c) eqn:Hpc; [|reflexivity].
  apply Hp in Hpc. congruence.
Qed.

Lemma rstrip_by_app (p : ascii -> bool) (s t : string) :
  t <> EmptyString -> rstrip_by p t = t -> rstrip_by p (s ++ t) = s ++ t.
Proof.
  intros Hne Ht. induction s as [|a s IH].
  - now rewrite string_app_nil_l.
  - rewrite string_app_cons. simpl. rewrite IH.
    replace (is_empty (s ++ t)) with false.
    + now rewrite andb_false_r.
    + destruct s; [destruct t; [congruence | reflexivity] | reflexivity].
Qed.

Lemma join_words_nonempty (w : string) (ws : list string) :
  w <> EmptyString -> join " " (w :: ws) <> EmptyString.
Proof.
  intros Hne. destruct w as [|c w]; [congruence|].
  destruct ws; simpl; [discriminate|].
  rewrite string_app_cons. discriminate.
Qed.

Lemma rstrip_join_words (ws : list string) :
  Forall is_word ws -> rstrip_by isspace (join " " ws) = join " " ws.
Proof.
  induction 1 as [|w ws [Hne Hsp] Hws IH]; [reflexivity|].
  destruct ws as [|w' ws].
  - simpl. now apply rstrip_by_no_match.
  - change (join " " (w :: w' :: ws)) with (w ++ " " ++ join " " (w' :: ws)).
    assert (Hj : join " " (w' :: ws) <> EmptyString).
    { apply join_words_nonempty. inversion Hws as [|? ? [Hw' _] _]. exact Hw'. }
    apply rstrip_by_app.
    + rewrite string_app_cons. discriminate.
    + now apply rstrip_by_app.
Qed.

Lemma lstrip_join_words (ws : list string) :
  Forall is_word ws -> lstrip_by isspace (join " " ws) = join " " ws.
Proof.
  intros Hws. destruct Hws as [|w ws [Hne Hsp] Hws]; [reflexivity|].
  destruct w as [|c w]; [congruence|].
  simpl in Hsp. apply orb_false_iff in Hsp as [Hc _].
  destruct ws; simpl.
  - now rewrite Hc.
  - rewrite string_app_cons. simpl. now rewrite Hc.
Qed.

Lemma strip_join_words (ws : list string) :
  Forall is_word ws -> strip (join " " ws) = join " " ws.
Proof.
  intros Hws. unfold strip.
  rewrite (lstrip_join_words ws Hws). now apply rstrip_join_words.
Qed.

End PyStrFacts.

(** * Facts about label cleaning *)

Section LabelsFacts.
Import PyStr Labels.

(** A numeric first word is kept; an empty label stays empty. *)
Example process_string_numeric_first :
  process_string " 12B  Annex 7 East" = "12B Annex".
Proof. reflexivity. Qed.

Example process_string_empty : process_string "" = "".
Proof. reflexivity. Qed.

Lemma clean_loop_later (i : nat) (words cleaned : list string) :
  clean_loop (S i) words cleaned = (cleaned ++ take_clean words)%list.
Proof.
  revert i cleaned. induction words as [|w ws IH]; intros i cleaned; simpl.
  - now rewrite app_nil_r.
  - destruct (any_isdigit w).
    + now rewrite app_nil_r.
    + rewrite IH, <- app_assoc. reflexivity.
Qed.

Lemma clean_loop_kept (words : list string) :
  clean_loop 0 words [] = kept words.
Proof.
  destruct words as [|w ws]; [reflexivity|].
  simpl. now rewrite clean_loop_later.
Qed.

Lemma take_clean_fixed (words : list string) :
  take_clean (take_clean words) = take_clean words.
Proof.
  induction words as [|w ws IH]; simpl; [reflexivity|].
  destruct (any_isdigit w) eqn:Hw; simpl; [reflexivity|].
  now rewrite Hw, IH.
Qed.

Lemma kept_fixed (words : list string) : kept (kept words) = kept words.
Proof.
  destruct words as [|w ws]; simpl; [reflexivity|].
  now rewrite take_clean_fixed.
Qed.

Lemma take_clean_words (words : list string) :
  Forall is_word words -> Forall is_word (take_clean words).
Proof.
  induction 1 as [|w ws Hw Hws IH]; simpl; [constructor|].
  destruct (any_isdigit w); now constructor.
Qed.

Lemma kept_words (words : list string) :
  Forall is_word words -> Forall is_word (kept words).
Proof.
  intros [|w ws Hw Hws]; simpl; [constructor|].
  constructor; [exact Hw | now apply take_clean_words].
Qed.

(** [process_string] without the loop and without the final [strip], which
    has nothing left to remove. *)
Lemma process_string_kept (s : string) :
  process_string s = join " " (kept (split s)).
Proof.
  unfold process_string. rewrite clean_loop_kept.
  apply strip_join_words, kept_words, split_words.
Qed.

End LabelsFacts.

(** * Facts about the intensity classifier *)

Section IntensityFacts.
Import Intensity.
Open Scope Q_scope.

Lemma Qlt_bool_iff (x y : Q) : Qlt_bool x y = true <-> x < y.
Proof. unfold Qlt_bool, Qlt. apply Z.ltb_lt. Qed.

Lemma Qle_bool_spec (x y : Q) : reflect (x <= y) (Qle_bool x y).
Proof. apply iff_reflect. symmetry. apply Qle_bool_iff. Qed.

Lemma Qlt_bool_spec (x y : Q) : reflect (x < y) (Qlt_bool x y).
Proof. apply iff_reflect. symmetry. apply Qlt_bool_iff. Qed.

(** One row of a scan: taken when the value is inside its bounds, passed
    over when it is not. *)
Lemma wind_scan_hit (l h : Q) (name : string) (k : Z) (rest : list row) (w : Q) :
  l <= w -> w < h -> wind_scan ((Fin l, Fin h, name, k) :: rest) w = (name, k).
Proof.
  intros Hl Hh. simpl.
  destruct (Qle_bool_spec l w); [|contradiction].
  destruct (Qlt_bool_spec w h); [reflexivity | contradiction].
Qed.

Lemma wind_scan_hit_inf (l : Q) (name : string) (k : Z) (rest : list row) (w : Q) :
  l <= w -> wind_scan ((Fin l, Inf, name, k) :: rest) w = (name, k).
Proof.
  intros Hl. simpl.
  destruct (Qle_bool_spec l w); [reflexivity | contradiction].
Qed.

Lemma wind_scan_miss (l : Q) (hi : bound) (name : string) (k : Z)
    (rest : list row) (w : Q) :
  w < l \/ (exists h, hi = Fin h /\ h <= w) ->
  wind_scan ((Fin l, hi, name, k) :: rest) w = wind_scan rest w.
Proof.
  intros H. simpl.
  destruct (Qle_bool_spec l w) as [Hl|Hl]; [|reflexivity].
  destruct H as [H | (h & -> & H)]; [lra|].
  simpl. destruct (Qlt_bool_spec w h); [lra | reflexivity].
Qed.

Lemma pressure_scan_hit (h l : Q) (name : string) (k : Z) (rest : list row) (p : Q) :
  p < h -> l <= p -> pressure_scan ((Fin h, Fin l, name, k) :: rest) p = (name, k).
Proof.
  intros Hh Hl. simpl. unfold bound_gt, ge_bound. simpl.
  destruct (Qlt_bool_spec p h); [|contradiction].
  destruct (Qle_bool_spec l p); [reflexivity | contradiction].
Qed.

Lemma pressure_scan_hit_inf (l : Q) (name : string) (k : Z) (rest : list row) (p : Q) :
  l <= p -> pressure_scan ((Inf, Fin l, name, k) :: rest) p = (name, k).
Proof.
  intros Hl. simpl. unfold bound_gt, ge_bound. simpl.
  destruct (Qle_bool_spec l p); [reflexivity | contradiction].
Qed.

Lemma pressure_scan_miss (hi : bound) (l : Q) (name : string) (k : Z)
    (rest : list row) (p : Q) :
  p < l \/ (exists h, hi = Fin h /\ h <= p) ->
  pressure_scan ((hi, Fin l, name, k) :: rest) p = pressure_scan rest p.
Proof.
  intros H. simpl. unfold bound_gt, ge_bound. simpl.
  destruct (Qle_bool_spec l p) as [Hl|Hl]; [|now rewrite andb_false_r].
  destruct H as [H | (h & -> & H)]; [lra|].
  simpl. destruct (Qlt_bool_spec p h); [lra | reflexivity].
Qed.

Ltac outside_row :=
  first [ left; lra | right; eexists; split; [reflexivity | lra] ].

Ltac scan_rows :=
  repeat first
    [ rewrite wind_scan_hit by lra
    | rewrite wind_scan_hit_inf by lra
    | rewrite pressure_scan_hit by lra
    | rewrite pressure_scan_hit_inf by lra
    | rewrite wind_scan_miss by outside_row
    | rewrite pressure_scan_miss by outside_row ];
  try reflexivity.

Ltac below q w :=
  destruct (Qlt_le_dec w q);
  [ repeat (first [ left; split; [lra | scan_rows; fail] | right ]);
    try (split; [lra | scan_rows]) | ].

(** What [wind_speed_to_category] returns, over the whole line: the upper
    bound of a row is excluded, so the speeds from a row's upper bound up to
    the next row's lower bound belong to no row. *)
Lemma wind_speed_to_category_cases (w : Q) :
  (w < 0 /\ wind_speed_to_category w = unknown) \/
  (0 <= w < 34 /\ wind_speed_to_category w = ("Tropical Depression", (-1)%Z)) \/
  (34 <= w < 63 /\ wind_speed_to_category w = ("Tropical Storm", 0%Z)) \/
  (63 <= w < 64 /\ wind_speed_to_category w = unknown) \/
  (64 <= w < 82 /\ wind_speed_to_category w = ("Category 1", 1%Z)) \/
  (82 <= w < 83 /\ wind_speed_to_category w = unknown) \/
  (83 <= w < 95 /\ wind_speed_to_category w = ("Category 2", 2%Z)) \/
  (95 <= w < 96 /\ wind_speed_to_category w = unknown) \/
  (96 <= w < 112 /\ wind_speed_to_category w = ("Category 3", 3%Z)) \/
  (112 <= w < 113 /\ wind_speed_to_category w = unknown) \/
  (113 <= w < 136 /\ wind_speed_to_category w = ("Category 4", 4%Z)) \/
  (136 <= w < 137 /\ wind_speed_to_category w = unknown) \/
  (137 <= w /\ wind_speed_to_category w = ("Category 5", 5%Z)).
Proof.
  unfold wind_speed_to_category, ws_categories.
  below 0 w. below 34 w. below 63 w. below 64 w. below 82 w. below 83 w.
  below 95 w. below 96 w. below 112 w. below 113 w. below 136 w. below 137 w.
  do 12 right. split; [lra | scan_rows].
Qed.

(** What [pressure_to_category] returns, over the whole line. *)
Lemma pressure_to_category_cases (p : Q) :
  (p < 0 /\ pressure_to_category p = unknown) \/
  (0 <= p < 920 /\ pressure_to_category p = ("Category 5", 5%Z)) \/
  (920 <= p < 945 /\ pressure_to_category p = ("Category 4", 4%Z)) \/
  (945 <= p < 965 /\ pressure_to_category p = ("Category 3", 3%Z)) \/
  (965 <= p < 980 /\ pressure_to_category p = ("Category 2", 2%Z)) \/
  (980 <= p < 990 /\ pressure_to_category p = ("Category 1", 1%Z)) \/
  (990 <= p /\ pressure_to_category p = ("Tropical Storm", 0%Z)).
Proof.
  unfold pressure_to_category, cp_categories.
  below 0 p. below 920 p. below 945 p. below 965 p. below 980 p. below 990 p.
  do 6 right. split; [lra | scan_rows].
Qed.

End IntensityFacts.

(** C1 (the code at the inputs where it leaves the claimed scale): a wind
    speed of 63 knots lies in the claimed Tropical Storm interval, from 34
    up to but not including 64, yet [wind_speed_to_category] finds no row
    for it and returns the fallback: the upper bound 63 of the row is
    excluded by the strict comparison, and the next row starts at 64. The
    same happens at the upper bound of each of the next four rows. At 34
    the function does return Tropical Storm. *)
Theorem wind_speed_63_is_unknown :
  Intensity.wind_speed_to_category 63 = ("Unknown", (-999)%Z) /\
  Intensity.wind_speed_to_category 82 = ("Unknown", (-999)%Z) /\
  Intensity.wind_speed_to_category 95 = ("Unknown", (-999)%Z) /\
  Intensity.wind_speed_to_category 112 = ("Unknown", (-999)%Z) /\
  Intensity.wind_speed_to_category 136 = ("Unknown", (-999)%Z) /\
  Intensity.wind_speed_to_category 34 = ("Tropical Storm", 0%Z).
Proof. repeat split; reflexivity. Qed.

(** C6 as stated fails below zero: -1 is under every row of the table and
    gets the fallback ordinal -999, which is below the ordinal 0 of the
    higher pressure 1000. *)
Lemma pressure_not_monotone_below_zero :
  (-1 <= 1000)%Q /\
  ~ (Intensity.severity (Intensity.pressure_to_category 1000)
     <= Intensity.severity (Intensity.pressure_to_category (-1)))%Z.
Proof.
  split.
  - unfold Qle; simpl; lia.
  - vm_compute. intros H. apply H. reflexivity.
Qed.

(** C6, amended: over the pressures from zero up, the severity ordinal of
    [pressure_to_category] never increases as the pressure increases. *)
Theorem pressure_severity_antitone (p1 p2 : Q) :
  (0 <= p1)%Q -> (p1 <= p2)%Q ->
  (Intensity.severity (Intensity.pressure_to_category p2)
   <= Intensity.severity (Intensity.pressure_to_category p1))%Z.
Proof.
  intros H0 Hle. unfold Intensity.severity.
  destruct (pressure_to_category_cases p1)
    as [[B1 ->]|[[B1 ->]|[[B1 ->]|[[B1 ->]|[[B1 ->]|[[B1 ->]|[B1 ->]]]]]]];
  destruct (pressure_to_category_cases p2)
    as [[B2 ->]|[[B2 ->]|[[B2 ->]|[[B2 ->]|[[B2 ->]|[[B2 ->]|[B2 ->]]]]]]];
  simpl; try lia; exfalso; lra.
Qed.

Lemma pressure_severity_antitone_witness :
  (Intensity.severity (Intensity.pressure_to_category 985)
   <= Intensity.severity (Intensity.pressure_to_category 950))%Z.
Proof.
  apply (pressure_severity_antitone 950 985).
  - unfold Qle; simpl; lia.
  - unfold Qle; simpl; lia.
Defined.

(** * Facts about the radius table *)

Section RadiusFacts.
Import RadiusTable.
Open Scope Z_scope.

Lemma hours_lookup (r12 r24 r36 r48 r60 r72 r96 r120 h r : Z) :
  hours r12 r24 r36 r48 r60 r72 r96 r120 !! h = Some r ->
  In h forecast_hours /\ In r [r12; r24; r36; r48; r60; r72; r96; r120].
Proof.
  unfold hours, forecast_hours.
  rewrite !lookup_insert, lookup_empty.
  repeat case_decide; intros [= <-]; subst; simpl; tauto.
Qed.

Lemma hours_lookup_listed (r12 r24 r36 r48 r60 r72 r96 r120 h : Z) :
  In h forecast_hours ->
  is_Some (hours r12 r24 r36 r48 r60 r72 r96 r120 !! h).
Proof.
  unfold hours, forecast_hours. simpl.
  intros H. rewrite !lookup_insert.
  repeat case_decide; eauto.
  exfalso. intuition congruence.
Qed.

Lemma radius_lookup_basin (basin : string) (by_hour : gmap Z Z) :
  radius_lookup !! basin = Some by_hour ->
  In basin basins /\
  exists r12 r24 r36 r48 r60 r72 r96 r120,
    by_hour = hours r12 r24 r36 r48 r60 r72 r96 r120 /\
    Forall (fun r => 0 < r) [r12; r24; r36; r48; r60; r72; r96; r120].
Proof.
  unfold radius_lookup, basins.
  rewrite !lookup_insert, lookup_empty.
  repeat case_decide; intros [= <-]; subst;
    (split; [simpl; tauto|]);
    do 8 eexists; (split; [reflexivity|]);
    repeat constructor.
Qed.

Lemma radius_lookup_listed (basin : string) :
  In basin basins -> is_Some (radius_lookup !! basin).
Proof.
  unfold radius_lookup, basins. simpl.
  intros H. rewrite !lookup_insert.
  repeat case_decide; eauto.
  exfalso. intuition congruence.
Qed.

End RadiusFacts.

(** C8: an entry of the radius table is what [get_radius] returns, and it
    is positive; the table has an entry for every listed basin at every
    listed hour; for an hour outside 12, 24, 36, 48, 60, 72, 96, 120, or a
    basin outside the table, [get_radius] returns [None]. *)
Theorem get_radius_table (basin : string) (forecast_hour : Z) :
  (forall by_hour radius,
      RadiusTable.radius_lookup !! basin = Some by_hour ->
      by_hour !! forecast_hour = Some radius ->
      RadiusTable.get_radius basin forecast_hour = Some radius /\ (0 < radius)%Z) /\
  (In basin RadiusTable.basins -> In forecast_hour RadiusTable.forecast_hours ->
   exists radius,
     RadiusTable.get_radius basin forecast_hour = Some radius /\ (0 < radius)%Z) /\
  (~ In forecast_hour [12; 24; 36; 48; 60; 72; 96; 120]%Z \/
   ~ In basin ["AL"; "EP"; "CP"; "WP"; "IO"; "SH"; "SL"] ->
   RadiusTable.get_radius basin forecast_hour = None).
Proof.
  assert (Hentry : forall by_hour radius,
      RadiusTable.radius_lookup !! basin = Some by_hour ->
      by_hour !! forecast_hour = Some radius ->
      RadiusTable.get_radius basin forecast_hour = Some radius /\ (0 < radius)%Z).
  { intros by_hour radius Hb Hh. unfold RadiusTable.get_radius.
    rewrite Hb, Hh. split; [reflexivity|].
    destruct (radius_lookup_basin _ _ Hb) as (_ & r12 & r24 & r36 & r48 & r60 & r72 & r96 & r120 & -> & Hpos).
    apply hours_lookup in Hh as [_ Hin].
    rewrite Forall_forall in Hpos. apply Hpos. apply list_elem_of_In, Hin. }
  split; [exact Hentry|]. split.
  - intros Hb Hh.
    destruct (radius_lookup_listed _ Hb) as [by_hour Hlk].
    destruct (radius_lookup_basin _ _ Hlk) as (_ & r12 & r24 & r36 & r48 & r60 & r72 & r96 & r120 & -> & _).
    destruct (hours_lookup_listed r12 r24 r36 r48 r60 r72 r96 r120 _ Hh) as [radius Hr].
    exists radius. now apply (Hentry _ _ Hlk).
  - intros H. unfold RadiusTable.get_radius.
    destruct (RadiusTable.radius_lookup !! basin) as [by_hour|] eqn:Hb; [|reflexivity].
    destruct (by_hour !! forecast_hour) as [radius|] eqn:Hh; [|reflexivity].
    destruct (radius_lookup_basin _ _ Hb) as (Hbasin & r12 & r24 & r36 & r48 & r60 & r72 & r96 & r120 & -> & _).
    destruct H as [H|H]; [|contradiction].
    apply hours_lookup in Hh as [Hin _]. contradiction.
Qed.

Lemma get_radius_table_witness :
  (RadiusTable.get_radius "AL" 24 = Some 41%Z /\ (0 < 41)%Z) /\
  (exists radius, RadiusTable.get_radius "CP" 120 = Some radius /\ (0 < radius)%Z) /\
  RadiusTable.get_radius "AL" 18 = None /\
  RadiusTable.get_radius "XX" 12 = None.
Proof.
  split; [|split; [|split]].
  - apply (proj1 (get_radius_table "AL" 24)
             (RadiusTable.hours 26 41 55 70 88 102 151 220) 41%Z);
      vm_compute; reflexivity.
  - apply (proj1 (proj2 (get_radius_table "CP" 120))); simpl; tauto.
  - apply (proj2 (proj2 (get_radius_table "AL" 18))).
    left. simpl. lia.
  - apply (proj2 (proj2 (get_radius_table "XX" 12))).
    right. simpl. intuition discriminate.
Defined.

(** * Facts about the cone builder *)

Section ConeFacts.
Import RadiusTable ConeBuilder.
Context {G : Type} `{GeometryLaws G}.

Abbreviation frame := (GeoDataFrame (ForecastRow G)).

Lemma require_column_present {R : Type} (label : string) (df : GeoDataFrame R) :
  label ∈ columns df -> require_column label df = Ok tt.
Proof. intros Hin. unfold require_column. now rewrite decide_True. Qed.

Lemma try_models_first_match (models : list string) (df : frame)
    (ofcl_gdf : option frame) :
  "ModelName" ∈ columns df ->
  first_match models (rows df) <> [] ->
  try_models models df ofcl_gdf = Ok (with_rows df (first_match models (rows df))).
Proof.
  intros Hcol. revert ofcl_gdf.
  induction models as [|model rest IH]; intros ofcl_gdf Hne; [now destruct Hne|].
  simpl in *. unfold select_eq. rewrite (require_column_present _ _ Hcol). simpl.
  destruct (filter (fun r => ModelName r = model) (rows df)) as [|r sel] eqn:Hsel.
  - unfold empty at 1. simpl. now apply IH.
  - unfold empty, with_rows. simpl.
    destruct (columns df) eqn:Hc; [now apply elem_of_nil in Hcol|].
    reflexivity.
Qed.

Lemma try_models_no_match (models : list string) (df : frame) (ofcl_gdf : option frame) :
  "ModelName" ∈ columns df ->
  first_match models (rows df) = [] ->
  try_models models df ofcl_gdf =
  match models, ofcl_gdf with
  | [], None => Raise NameError
  | [], Some previous => Ok previous
  | _ :: _, _ => Ok (with_rows df [])
  end.
Proof.
  intros Hcol. revert ofcl_gdf.
  induction models as [|model rest IH]; intros ofcl_gdf Hnone.
  - destruct ofcl_gdf; reflexivity.
  - simpl in *. unfold select_eq. rewrite (require_column_present _ _ Hcol). simpl.
    destruct (filter (fun r => ModelName r = model) (rows df)) as [|r sel] eqn:Hsel;
      [|discriminate].
    unfold empty at 1. simpl. rewrite (IH _ Hnone).
    destruct rest; reflexivity.
Qed.

(** The filter returns the authoritative track under the frame's header, or
    [gpd.GeoDataFrame()] when there is none. *)
Lemma filter_adeck_gdf_for_official_model_spec (df : frame) :
  "ModelName" ∈ columns df ->
  filter_adeck_gdf_for_official_model df =
  Ok (match authoritative df with
      | [] => empty_frame
      | _ :: _ => with_rows df (authoritative df)
      end).
Proof.
  intros Hcol. unfold filter_adeck_gdf_for_official_model, authoritative.
  destruct (first_match models_to_try (rows df)) as [|r sel] eqn:Hfm.
  - rewrite (try_models_no_match _ _ _ Hcol Hfm). reflexivity.
  - rewrite (try_models_first_match _ _ _ Hcol) by (rewrite Hfm; discriminate).
    rewrite Hfm. simpl. unfold empty. simpl.
    destruct (columns df) eqn:Hc; [now apply elem_of_nil in Hcol|].
    reflexivity.
Qed.

(** The run of the builder on a frame that has the columns, a CRS and an
    authoritative track. *)
Lemma create_uncertainty_cone_run (df : frame) (source utm : CRS) :
  "ModelName" ∈ columns df -> "ForecastHour" ∈ columns df ->
  "Basin" ∈ columns df -> "geometry" ∈ columns df ->
  crs df = Some source ->
  authoritative df <> [] ->
  utm_of_bounds (map geometry (sorted_track df)) = Some utm ->
  create_uncertainty_cone df =
  match track_buffers source utm df with
  | [] => Ok empty_frame
  | buffered_geometries =>
      Ok {| columns := ["geometry"];
            rows := [transform utm EPSG_4326 (final_cone_polygon buffered_geometries)];
            crs := Some EPSG_4326 |}
  end.
Proof.
  intros Hmodel Hhour Hbasin Hgeom Hcrs Hauth Hutm.
  unfold create_uncertainty_cone.
  rewrite (filter_adeck_gdf_for_official_model_spec df Hmodel).
  destruct (authoritative df) as [|r0 auth] eqn:Ha; [congruence|].
  cbn [mbind result_bind].
  unfold sort_values. rewrite require_column_present by exact Hhour.
  cbn [mbind result_bind with_rows rows columns crs].
  unfold estimate_utm_crs. cbn [rows columns crs].
  rewrite decide_True by exact Hgeom. rewrite Hcrs.
  unfold sorted_track in Hutm. rewrite Ha in Hutm. rewrite Hutm.
  cbn [mbind result_bind].
  unfold to_crs. cbn [rows columns crs].
  rewrite decide_True by exact Hgeom.
  cbn [mbind result_bind rows columns crs].
  rewrite !require_column_present by assumption.
  assert (Hstep : forall b : bool, (if b then Ok () else Ok ()) = @Ok unit ()).
  { now intros []. }
  cbn [mbind result_bind]. rewrite Hstep. cbn [mbind result_bind].
  unfold track_buffers, sorted_track. rewrite Ha.
  destruct (buffer_rows _ []) as [|b bufs]; [reflexivity|].
  unfold to_crs. cbn [rows columns crs].
  rewrite decide_True by (apply list_elem_of_singleton; reflexivity).
  reflexivity.
Qed.

(** How many buffers the loop makes. *)
Lemma buffer_rows_length (track_rows : list (ForecastRow G)) (buffered : list G) :
  length (buffer_rows track_rows buffered) =
  (length buffered + length (List.filter usable track_rows))%nat.
Proof.
  revert buffered. induction track_rows as [|r rest IH]; intros buffered; simpl.
  - lia.
  - unfold usable at 1.
    destruct (get_radius (Basin r) (ForecastHour r)); simpl.
    + rewrite IH, length_app. simpl. lia.
    + apply IH.
Qed.

Lemma usable_reproject_row (source target : CRS) (r : ForecastRow G) :
  usable (reproject_row source target r) = usable r.
Proof. reflexivity. Qed.

Lemma usable_count_reproject (source target : CRS) (track_rows : list (ForecastRow G)) :
  length (List.filter usable (map (reproject_row source target) track_rows)) =
  length (List.filter usable track_rows).
Proof.
  induction track_rows as [|r rest IH]; simpl; [reflexivity|].
  rewrite usable_reproject_row. destruct (usable r); simpl; now rewrite IH.
Qed.

Lemma usable_count_insert (r : ForecastRow G) (sorted : list (ForecastRow G)) :
  length (List.filter usable (insert_sorted ForecastHour r sorted)) =
  length (List.filter usable (r :: sorted)).
Proof.
  induction sorted as [|x rest IH]; simpl; [reflexivity|].
  destruct (ForecastHour r <=? ForecastHour x)%Z; simpl; [reflexivity|].
  simpl in IH. destruct (usable x), (usable r); simpl in *; lia.
Qed.

Lemma usable_count_sorted (track_rows : list (ForecastRow G)) :
  length (List.filter usable (foldr (insert_sorted ForecastHour) [] track_rows)) =
  length (List.filter usable track_rows).
Proof.
  induction track_rows as [|r rest IH]; simpl; [reflexivity|].
  rewrite usable_count_insert. simpl.
  destruct (usable r); simpl; now rewrite IH.
Qed.

Lemma track_buffers_length (source utm : CRS) (df : frame) :
  length (track_buffers source utm df) = length (usable_points df).
Proof.
  unfold track_buffers, usable_points, sorted_track.
  rewrite buffer_rows_length, usable_count_reproject, usable_count_sorted.
  reflexivity.
Qed.

(** One buffer has no neighbour to be bridged to. *)
Lemma convex_hull_segments_single (b : G) : convex_hull_segments [b] = [].
Proof. reflexivity. Qed.

(** X8: with an authoritative track and fewer than two usable points the
    builder returns an empty cone: no row when no point is usable, the empty
    union when one is. *)
Lemma create_uncertainty_cone_few_buffers (df : frame) (source utm : CRS) :
  "ModelName" ∈ columns df -> "ForecastHour" ∈ columns df ->
  "Basin" ∈ columns df -> "geometry" ∈ columns df ->
  crs df = Some source ->
  authoritative df <> [] ->
  utm_of_bounds (map geometry (sorted_track df)) = Some utm ->
  (length (usable_points df) < 2)%nat ->
  exists cone_gdf,
    create_uncertainty_cone df = Ok cone_gdf /\ cone_is_empty cone_gdf = true.
Proof using All.
  intros Hmodel Hhour Hbasin Hgeom Hcrs Hauth Hutm Hfew.
  rewrite (create_uncertainty_cone_run df source utm) by assumption.
  rewrite <- (track_buffers_length source utm) in Hfew.
  destruct (track_buffers source utm df) as [|b [|b' bufs]]; simpl in Hfew; [| |lia].
  - exists empty_frame. split; reflexivity.
  - eexists. split; [reflexivity|].
    unfold cone_is_empty, final_cone_polygon.
    rewrite convex_hull_segments_single. cbn [rows forallb].
    rewrite transform_is_empty, unary_union_nil_is_empty. reflexivity.
Qed.

(** Every buffer but a lone one is inside one of the bridging segments. *)
Lemma convex_hull_segments_cover (buffered_geometries : list G) (b : G) :
  (2 <= length buffered_geometries)%nat ->
  In b buffered_geometries ->
  exists segment,
    In segment (convex_hull_segments buffered_geometries) /\ covers segment b.
Proof using All.
  induction buffered_geometries as [|b1 rest IH]; simpl; [lia|].
  destruct rest as [|b2 rest]; simpl; [lia|].
  intros _ [<-|Hin].
  - eexists. split; [left; reflexivity|].
    eapply covers_trans; [apply convex_hull_covers|].
    eapply covers_trans; [apply union_covers_l | apply convex_hull_covers].
  - destruct rest as [|b3 rest].
    + destruct Hin as [<-|[]].
      eexists. split; [left; reflexivity|].
      eapply covers_trans; [apply convex_hull_covers|].
      eapply covers_trans; [apply union_covers_r | apply convex_hull_covers].
    + destruct (IH ltac:(simpl; lia) Hin) as (segment & Hseg & Hcov).
      exists segment. split; [right; exact Hseg | exact Hcov].
Qed.

(** With two buffers or more, the merged polygon covers every buffer. *)
Lemma final_cone_polygon_covers (buffered_geometries : list G) (b : G) :
  (2 <= length buffered_geometries)%nat ->
  In b buffered_geometries ->
  covers (final_cone_polygon buffered_geometries) b.
Proof using All.
  intros Hlen Hin.
  destruct (convex_hull_segments_cover _ _ Hlen Hin) as (segment & Hseg & Hcov).
  eapply covers_trans; [|exact Hcov].
  now apply unary_union_covers.
Qed.

(** X9: with two usable points or more the builder returns one geometry, the
    merged polygon taken back to EPSG:4326, and in the metric frame that
    polygon covers every buffer. *)
Lemma create_uncertainty_cone_many_buffers (df : frame) (source utm : CRS) :
  "ModelName" ∈ columns df -> "ForecastHour" ∈ columns df ->
  "Basin" ∈ columns df -> "geometry" ∈ columns df ->
  crs df = Some source ->
  authoritative df <> [] ->
  utm_of_bounds (map geometry (sorted_track df)) = Some utm ->
  (2 <= length (usable_points df))%nat ->
  let buffered_geometries := track_buffers source utm df in
  create_uncertainty_cone df =
    Ok {| columns := ["geometry"];
          rows := [transform utm EPSG_4326 (final_cone_polygon buffered_geometries)];
          crs := Some EPSG_4326 |} /\
  forall b, In b buffered_geometries ->
            covers (final_cone_polygon buffered_geometries) b.
Proof using All.
  intros Hmodel Hhour Hbasin Hgeom Hcrs Hauth Hutm Hmany bufs.
  rewrite (create_uncertainty_cone_run df source utm) by assumption.
  rewrite <- (track_buffers_length source utm) in Hmany. fold bufs in Hmany |- *.
  split.
  - destruct bufs; [simpl in Hmany; lia | reflexivity].
  - intros b Hb. now apply final_cone_polygon_covers.
Qed.

(** With no row of a preferred model the filter hands back
    [gpd.GeoDataFrame()], which has no column to sort by. *)
Lemma create_uncertainty_cone_no_authoritative (df : frame) :
  "ModelName" ∈ columns df ->
  authoritative df = [] ->
  create_uncertainty_cone df = Raise (KeyError "ForecastHour").
Proof.
  intros Hmodel Hnone. unfold create_uncertainty_cone.
  rewrite (filter_adeck_gdf_for_official_model_spec df Hmodel), Hnone.
  reflexivity.
Qed.

Lemma first_match_none (models : list string) (track_rows : list (ForecastRow G)) :
  Forall (fun r => ~ In (ModelName r) models) track_rows ->
  first_match models track_rows = [].
Proof.
  intros Hrows. induction models as [|model rest IH]; simpl; [reflexivity|].
  assert (Hsel : filter (fun r => ModelName r = model) track_rows = []).
  { clear IH. induction Hrows as [|r rs Hr Hrs IHrs]; [reflexivity|].
    rewrite filter_cons. destruct (decide (ModelName r = model)) as [Heq|Hneq].
    - exfalso. apply Hr. left. now symmetry.
    - exact IHrs. }
  rewrite Hsel. apply IH.
  eapply Forall_impl; [exact Hrows|].
  intros r Hr Hin. apply Hr. now right.
Qed.

End ConeFacts.

(** * The cone builder on three tracks *)

(** One usable point: one row, holding the union of no segments. *)
Example create_uncertainty_cone_one_point :
  ConeBuilder.create_uncertainty_cone Symbolic.one_point =
  Ok {| ConeBuilder.columns := ["geometry"];
        ConeBuilder.rows :=
          [Symbolic.Transform (ConeBuilder.EPSG 32617) (ConeBuilder.EPSG 4326)
             (Symbolic.UnaryUnion [])];
        ConeBuilder.crs := Some (ConeBuilder.EPSG 4326) |}.
Proof. vm_compute. reflexivity. Qed.

(** The lemma on few buffers, at that track. *)
Lemma create_uncertainty_cone_few_buffers_witness :
  exists cone_gdf,
    ConeBuilder.create_uncertainty_cone Symbolic.one_point = Ok cone_gdf /\
    ConeBuilder.cone_is_empty cone_gdf = true.
Proof.
  apply (create_uncertainty_cone_few_buffers Symbolic.one_point
           ConeBuilder.EPSG_4326 (ConeBuilder.EPSG 32617));
    try (apply list_elem_of_In; simpl; tauto);
    try reflexivity.
  - vm_compute. discriminate.
  - vm_compute. lia.
Defined.

(** Two usable points, at hours 12 and 24 of basin AL, given out of
    order, and one at hour 0 that has no radius: the buffers of 26 and 41
    nautical miles, in metres, bridged by one segment. *)
Example create_uncertainty_cone_two_points :
  ConeBuilder.create_uncertainty_cone Symbolic.two_points =
  let utm := ConeBuilder.EPSG 32617 in
  let at_utm := Symbolic.Transform (ConeBuilder.EPSG 4326) utm in
  Ok {| ConeBuilder.columns := ["geometry"];
        ConeBuilder.rows :=
          [Symbolic.Transform utm (ConeBuilder.EPSG 4326)
             (Symbolic.UnaryUnion
                [Symbolic.ConvexHull
                   (Symbolic.Union
                      (Symbolic.ConvexHull
                         (Symbolic.Buffer (at_utm (Symbolic.Point (-81) 26)) 48152))
                      (Symbolic.ConvexHull
                         (Symbolic.Buffer (at_utm (Symbolic.Point (-82) 27)) 75932)))])];
        ConeBuilder.crs := Some (ConeBuilder.EPSG 4326) |}.
Proof. vm_compute. reflexivity. Qed.

(** * The cone builder on a track with no preferred model *)

(** C3 (the code where it leaves the claim): on a frame none of whose rows
    comes from a preferred model, [create_uncertainty_cone] does not return
    an empty cone: the filter hands back [gpd.GeoDataFrame()], and sorting
    that by 'ForecastHour' raises [KeyError]. *)
Theorem create_uncertainty_cone_no_preferred_model
    {G : Type} `{ConeBuilder.Geometry G}
    (input_gdf : ConeBuilder.GeoDataFrame (ConeBuilder.ForecastRow G)) :
  "ModelName" ∈ ConeBuilder.columns input_gdf ->
  Forall (fun r => ~ In (ConeBuilder.ModelName r) ConeBuilder.models_to_try)
         (ConeBuilder.rows input_gdf) ->
  ConeBuilder.create_uncertainty_cone input_gdf = Raise (KeyError "ForecastHour").
Proof.
  intros Hmodel Hrows.
  apply create_uncertainty_cone_no_authoritative; [exact Hmodel|].
  now apply first_match_none.
Qed.

Lemma create_uncertainty_cone_no_preferred_model_witness :
  ConeBuilder.create_uncertainty_cone Symbolic.carq_only = Raise (KeyError "ForecastHour").
Proof.
  apply (create_uncertainty_cone_no_preferred_model Symbolic.carq_only).
  - unfold Symbolic.carq_only, Symbolic.track, Symbolic.track_columns. simpl.
    apply list_elem_of_In. simpl. tauto.
  - unfold Symbolic.carq_only, Symbolic.track, ConeBuilder.models_to_try. simpl.
    repeat constructor; simpl; intuition discriminate.
Defined.

(** C2 (the code where it leaves the claim): the track [xtrp_only] has no
    row of a preferred model, so its authoritative points give no usable
    buffer, fewer than two; [create_uncertainty_cone] raises [KeyError] on
    it instead of returning an empty cone. *)
Theorem create_uncertainty_cone_no_buffer_raises :
  length (ConeBuilder.usable_points Symbolic.xtrp_only) = 0%nat /\
  ConeBuilder.create_uncertainty_cone Symbolic.xtrp_only = Raise (KeyError "ForecastHour").
Proof. split; vm_compute; reflexivity. Qed.

(** * Label cleaning *)

(** C5 as stated fails: the cleaned label is not "Miami". *)
Lemma process_string_miami_not_first_word :
  Labels.process_string "Miami Office 12B Annex" <> "Miami".
Proof. vm_compute. discriminate. Qed.

(** C5, amended: "Miami Office 12B Annex" is cleaned to "Miami Office"; of
    its four words the loop keeps the first, keeps "Office", which has no
    digit, and stops at "12B", so that "12B" and "Annex" are dropped. *)
Theorem process_string_miami_office :
  PyStr.split "Miami Office 12B Annex" = ["Miami"; "Office"; "12B"; "Annex"] /\
  Labels.clean_loop 0 ["Miami"; "Office"; "12B"; "Annex"] [] = ["Miami"; "Office"] /\
  Labels.process_string "Miami Office 12B Annex" = "Miami Office".
Proof. repeat split; vm_compute; reflexivity. Qed.

(** C9: cleaning a cleaned label changes nothing. *)
Theorem process_string_idempotent (s : string) :
  Labels.process_string (Labels.process_string s) = Labels.process_string s.
Proof.
  rewrite !process_string_kept.
  rewrite split_join_words by apply kept_words, split_words.
  now rewrite kept_fixed.
Qed.

(** * Facts about the storm name inference *)

Section StormNameFacts.
Import PyStr StormName.

Lemma read_line_potential_name (d : name_dict) (line : string) :
  read_line d line =
  match potential_name line with
  | Some name => dict_incr name d
  | None => d
  end.
Proof.
  unfold read_line, potential_name.
  destruct (28 <=? length (split (strip line)))%nat; [|reflexivity].
  destruct (is_empty _); reflexivity.
Qed.

Lemma dict_keys_incr (k : string) (d : name_dict) :
  dict_keys (dict_incr k d) = add_key (dict_keys d) k.
Proof.
  unfold add_key, dict_keys. induction d as [|[k' v] rest IH].
  - cbn [dict_incr map fst].
    rewrite bool_decide_eq_false_2 by apply not_elem_of_nil. reflexivity.
  - cbn [dict_incr map fst].
    destruct (String.eqb_spec k' k) as [->|Hne]; cbn [map fst].
    + rewrite bool_decide_eq_true_2 by apply list_elem_of_here. reflexivity.
    + rewrite IH. destruct (bool_decide (k ∈ map fst rest)) eqn:Hin.
      * apply bool_decide_eq_true_1 in Hin.
        rewrite bool_decide_eq_true_2 by now apply list_elem_of_further.
        reflexivity.
      * apply bool_decide_eq_false_1 in Hin.
        rewrite bool_decide_eq_false_2; [reflexivity|].
        intros [Heq|Hin']%elem_of_cons; [congruence | contradiction].
Qed.

Lemma dict_keys_read_lines (lines : list string) (d : name_dict) :
  dict_keys (fold_left read_line lines d) =
  fold_left add_key (potential_names lines) (dict_keys d).
Proof.
  revert d. induction lines as [|line rest IH]; intros d; [reflexivity|].
  simpl. rewrite IH, read_line_potential_name. unfold potential_names. simpl.
  destruct (potential_name line) as [name|]; simpl; [|reflexivity].
  now rewrite dict_keys_incr.
Qed.

Lemma filter_filter (p q : string -> bool) (l : list string) :
  List.filter p (List.filter q l) = List.filter (fun x => q x && p x) l.
Proof.
  induction l as [|x rest IH]; simpl; [reflexivity|].
  destruct (q x); simpl; [|exact IH].
  destruct (p x); now rewrite IH.
Qed.

Lemma add_keys_first_seen (l acc : list string) :
  fold_left add_key l acc =
  (acc ++ List.filter (fun y => negb (bool_decide (y ∈ acc))) (first_seen l))%list.
Proof.
  revert acc. induction l as [|x rest IH]; intros acc; simpl.
  - now rewrite app_nil_r.
  - rewrite IH. unfold add_key.
    destruct (bool_decide (x ∈ acc)) eqn:Hin; simpl.
    + apply bool_decide_eq_true_1 in Hin. f_equal.
      rewrite filter_filter. apply List.filter_ext. intros y.
      destruct (String.eqb_spec y x) as [->|Hne]; simpl; [|reflexivity].
      now rewrite bool_decide_eq_true_2.
    + rewrite <- app_assoc. simpl. f_equal. f_equal.
      rewrite filter_filter. apply List.filter_ext. intros y.
      destruct (String.eqb_spec y x) as [->|Hne]; simpl.
      * rewrite bool_decide_eq_true_2; [reflexivity|].
        apply elem_of_app. right. apply list_elem_of_here.
      * destruct (bool_decide (y ∈ acc)) eqn:Hy.
        -- apply bool_decide_eq_true_1 in Hy.
           rewrite bool_decide_eq_true_2; [reflexivity|].
           apply elem_of_app. now left.
        -- apply bool_decide_eq_false_1 in Hy.
           rewrite bool_decide_eq_false_2; [reflexivity|].
           intros [Hacc|Hx%list_elem_of_singleton]%elem_of_app; [contradiction | congruence].
Qed.

Lemma dict_keys_filter (keep : string -> bool) (d : name_dict) :
  dict_keys (dict_filter keep d) = List.filter keep (dict_keys d).
Proof.
  unfold dict_keys, dict_filter.
  induction d as [|[k v] rest IH]; simpl; [reflexivity|].
  destruct (keep k); simpl; now rewrite IH.
Qed.

(** The keys of the dictionary after the three filters. *)
Lemma storm_names_candidates (lines : list string) :
  dict_keys
    (dict_filter (fun k => negb (bool_decide (k ∈ number_words_set)))
       (dict_filter (fun k => negb (any_isdigit k))
          (dict_filter (fun k => negb (bool_decide (k ∈ basin_codes)))
             (fold_left read_line lines [])))) =
  candidates lines.
Proof.
  rewrite !dict_keys_filter, dict_keys_read_lines, add_keys_first_seen.
  simpl. rewrite !filter_filter. unfold candidates.
  apply List.filter_ext. intros k. unfold is_candidate.
  cbn [andb]. now rewrite andb_assoc.
Qed.

Lemma list_remove_absent (x : string) (l : list string) :
  x ∉ l -> list_remove x l = l.
Proof.
  induction l as [|y rest IH]; intros Hx; simpl; [reflexivity|].
  apply not_elem_of_cons in Hx as [Hne Hx].
  destruct (String.eqb_spec y x) as [Heq|_]; [congruence|].
  now rewrite IH.
Qed.

Lemma forallb_eqb_all (c : string) (l : list string) :
  forallb (String.eqb c) l = true <-> forall d, d ∈ l -> d = c.
Proof.
  induction l as [|x rest IH]; simpl.
  - split; [intros _ d Hd; now apply elem_of_nil in Hd | reflexivity].
  - rewrite andb_true_iff, IH. split.
    + intros [Hx Hrest] d [->|Hd]%elem_of_cons.
      * symmetry. now apply String.eqb_eq.
      * now apply Hrest.
    + intros Hall. split.
      * apply String.eqb_eq. symmetry. apply Hall, list_elem_of_here.
      * intros d Hd. now apply Hall, list_elem_of_further.
Qed.

(** The set of cleaned names has one element exactly when the names share
    their cleaned form. *)
Lemma choose_among_common_form (names : list string) :
  choose_among names =
  match common_form names with
  | Some c => c
  | None => List.last names EmptyString
  end.
Proof.
  unfold choose_among, common_form.
  destruct (map (strip_basin_code basin_codes) names) as [|c rest] eqn:Hmap.
  - cbn [list_to_set foldr]. now rewrite elements_empty.
  - destruct (forallb (String.eqb c) rest) eqn:Hall.
    + rewrite forallb_eqb_all in Hall.
      assert (Hset : (list_to_set (c :: rest) : gset string) = {[c]}).
      { apply set_eq. intros d. rewrite elem_of_list_to_set, elem_of_singleton.
        split; [intros [->|Hd]%elem_of_cons; [reflexivity | now apply Hall]|].
        intros ->. apply list_elem_of_here. }
      rewrite Hset, elements_singleton. reflexivity.
    + destruct (elements (list_to_set (c :: rest) : gset string))
        as [|z [|z' more]] eqn:Hel; try reflexivity.
      exfalso.
      assert (Hin : forall d, d ∈ c :: rest -> d = z).
      { intros d Hd.
        assert (Hd' : d ∈ elements (list_to_set (c :: rest) : gset string)).
        { apply elem_of_elements, elem_of_list_to_set, Hd. }
        rewrite Hel in Hd'. now apply list_elem_of_singleton in Hd'. }
      assert (Hc : c = z) by apply Hin, list_elem_of_here.
      assert (Htrue : forallb (String.eqb c) rest = true).
      { apply forallb_eqb_all. intros d Hd. rewrite Hc.
        now apply Hin, list_elem_of_further. }
      congruence.
Qed.

(** The choice among the names, without the set. *)
Lemma choose_name_infer_name (names : list string) :
  choose_name names = infer_name names.
Proof.
  unfold choose_name, infer_name.
  destruct names as [|n rest]; [reflexivity|].
  destruct (bool_decide (n :: rest = ["INVEST"])); [reflexivity|].
  destruct (bool_decide ("INVEST" ∈ n :: rest)) eqn:Hin.
  - destruct (list_remove "INVEST" (n :: rest)) as [|a [|b more]];
      try reflexivity; apply choose_among_common_form.
  - apply bool_decide_eq_false_1 in Hin.
    rewrite (list_remove_absent _ _ Hin).
    destruct rest as [|b more]; [reflexivity|].
    apply choose_among_common_form.
Qed.

End StormNameFacts.

(** * The storm name on a few files *)

Example extract_storm_info_empty : StormName.extract_storm_info [] = "Disturbance".
Proof. vm_compute. reflexivity. Qed.

(** INVEST and a number word go; MICHAEL ends in the basin code AL, and
    what is left of it is the other candidate. *)
Example extract_storm_info_michael :
  StormName.extract_storm_info
    [StormName.adeck_line "0" "INVEST"; StormName.adeck_line "0" "NINE";
     StormName.adeck_line "12" "MICHAEL"; StormName.adeck_line "24" "MICHA"]
  = "Micha".
Proof. vm_compute. reflexivity. Qed.

(** The last line proposes ALPHA again; the name is the candidate that
    appeared first last. *)
Example extract_storm_info_last_first_seen :
  StormName.extract_storm_info
    [StormName.adeck_line "0" "ALPHA"; StormName.adeck_line "12" "BETA";
     StormName.adeck_line "24" "ALPHA"]
  = "Beta".
Proof. vm_compute. reflexivity. Qed.

(** C7 as stated fails: in [helene_file] HELENE is proposed three times and
    HELEN once, and the name inferred is "Helen". The counts are never
    looked at. *)
Lemma extract_storm_info_not_majority :
  ~ StormName.picks_majority StormName.helene_file.
Proof.
  intros Hmaj. specialize (Hmaj "HELENE").
  assert (Hcand : StormName.candidates StormName.helene_file = ["HELENE"; "HELEN"])
    by (vm_compute; reflexivity).
  rewrite Hcand in Hmaj.
  assert (Hname : StormName.extract_storm_info StormName.helene_file = "Helen")
    by (vm_compute; reflexivity).
  rewrite Hname in Hmaj.
  assert (Habs : "Helen" = PyStr.title "HELENE"); [|vm_compute in Habs; discriminate].
  apply Hmaj.
  - apply list_elem_of_here.
  - intros other Hother Hne.
    apply elem_of_cons in Hother as [->|Hother]; [congruence|].
    apply list_elem_of_singleton in Hother as ->.
    vm_compute. lia.
Qed.

(** C7, amended: the name depends on the distinct candidates in the order
    they first appear, not on how often each is proposed. The candidates
    are the upper-cased 28th fields that are no basin code, have no digit
    and are no number word. With none the name is Disturbance, with INVEST
    alone it is Invest; otherwise INVEST is set aside, a single candidate
    is the name, and among several the name is the form they share once
    their basin code is cut off, or else the candidate that first appeared
    last. The name is title-cased. The lines are ASCII, as the advisory
    files are: that is where the case mapping of the embedding is
    Python's. *)
Theorem extract_storm_info_first_seen (lines : list string) :
  Forall (fun line => PyStr.ascii_only line = true) lines ->
  StormName.extract_storm_info lines = PyStr.title (StormName.infer_name (StormName.candidates lines)).
Proof.
  intros _. unfold StormName.extract_storm_info.
  now rewrite storm_names_candidates, choose_name_infer_name.
Qed.

Lemma extract_storm_info_first_seen_witness :
  StormName.extract_storm_info StormName.helene_file =
  PyStr.title (StormName.infer_name (StormName.candidates StormName.helene_file)).
Proof.
  apply (extract_storm_info_first_seen StormName.helene_file).
  repeat constructor.
Defined.

(** * Facts about the coordinate parser *)

Section LatLonFacts.
Import PyStr LatLon.
Context {F : Type} `{FloatOps F}.

Lemma last_char_app (body : string) (c : ascii) :
  last_char (body ++ String c EmptyString) = Ok c.
Proof.
  induction body as [|a body IH]; [reflexivity|].
  rewrite string_app_cons. simpl. rewrite IH.
  destruct body; reflexivity.
Qed.

Lemma but_last_app (body : string) (c : ascii) :
  but_last (body ++ String c EmptyString) = body.
Proof.
  induction body as [|a body IH]; [reflexivity|].
  rewrite string_app_cons. simpl. rewrite IH.
  destruct body; reflexivity.
Qed.

Lemma last_char_nonempty (s : string) :
  s <> EmptyString -> exists c, last_char s = Ok c.
Proof.
  induction s as [|a s IH]; intros Hne; [congruence|].
  destruct s as [|b s]; [now exists a|].
  apply IH. discriminate.
Qed.

Lemma has_direction_ok (value : string) :
  exists b, has_direction value = Ok b.
Proof.
  unfold has_direction. destruct value as [|a value]; [now exists false|].
  destruct (last_char_nonempty (String a value)) as [c Hc]; [discriminate|].
  cbn [is_empty]. rewrite Hc. now eexists.
Qed.

Lemma has_direction_app (body : string) (c : ascii) :
  has_direction (body ++ String c EmptyString) = Ok (is_direction c).
Proof.
  unfold has_direction. rewrite last_char_app.
  destruct body; reflexivity.
Qed.

(** Whatever the cell holds, the parser returns. *)
Lemma parse_lat_lon_returns (value : pyvalue F) :
  exists degrees, parse_lat_lon value = Ok degrees.
Proof.
  destruct value as [s| | |]; try (now eexists).
  unfold parse_lat_lon. cbv zeta.
  destruct (strip s) as [|a v] eqn:Hs; [now eexists|].
  destruct (last_char_nonempty (String a v)) as [c Hc]; [discriminate|].
  unfold has_direction. cbn [is_empty]. rewrite Hc.
  cbn [mbind result_bind]. unfold py_float.
  destruct (is_direction c).
  - cbn [mbind result_bind].
    destruct (float_of_str _); now eexists.
  - cbn [negb]. destruct (float_of_str _); now eexists.
Qed.

Lemma parse_lat_lon_suffixed (s body : string) (direction : ascii) :
  strip s = body ++ String direction EmptyString ->
  is_direction direction = true ->
  parse_lat_lon (PyStr s) =
  Ok (match float_of_str body with
      | Some x =>
          Some (if bool_decide (direction ∈ ["S"; "W"]%char)
                then fneg (div10 x) else div10 x)
      | None => None
      end).
Proof.
  intros Hs Hdir. unfold parse_lat_lon. cbv zeta.
  rewrite Hs, has_direction_app, Hdir. cbn [mbind result_bind].
  rewrite last_char_app. cbn [mbind result_bind].
  rewrite but_last_app. unfold py_float.
  destruct (float_of_str body); reflexivity.
Qed.

Lemma parse_lat_lon_plain (s body : string) (c : ascii) :
  strip s = body ++ String c EmptyString ->
  is_direction c = false ->
  parse_lat_lon (PyStr s) =
  Ok (match float_of_str (strip s) with
      | Some x => Some (div10 x)
      | None => None
      end).
Proof.
  intros Hs Hdir. unfold parse_lat_lon. cbv zeta.
  rewrite Hs, has_direction_app, Hdir. cbn [mbind result_bind].
  replace (is_empty (body ++ String c EmptyString)) with false
    by (destruct body; reflexivity).
  cbn [negb]. unfold py_float.
  destruct (float_of_str _); reflexivity.
Qed.

End LatLonFacts.

(** C10: [parse_lat_lon] returns for every cell, a float or [None], and
    never raises; a cell that is no string gives [None]; a string that ends,
    once stripped, in N, S, E or W gives the float before the letter divided
    by 10, negated for S and W, or [None] when that is no float; a non-empty
    string with no such letter at its end gives the float it spells divided
    by 10, or [None] when it spells none. *)
Theorem parse_lat_lon_total {F : Type} `{LatLon.FloatOps F} :
  (forall value : LatLon.pyvalue F,
      exists degrees, LatLon.parse_lat_lon value = Ok degrees) /\
  (forall value : LatLon.pyvalue F,
      (forall s, value <> LatLon.PyStr s) -> LatLon.parse_lat_lon value = Ok None) /\
  (forall s body direction,
      PyStr.strip s = body ++ String direction EmptyString ->
      direction ∈ ["N"; "S"; "E"; "W"]%char ->
      LatLon.parse_lat_lon (LatLon.PyStr s) =
      Ok (match LatLon.float_of_str body with
          | Some x =>
              Some (if bool_decide (direction ∈ ["S"; "W"]%char)
                    then LatLon.fneg (LatLon.div10 x) else LatLon.div10 x)
          | None => None
          end)) /\
  (forall s body c,
      PyStr.strip s = body ++ String c EmptyString ->
      c ∉ ["N"; "S"; "E"; "W"]%char ->
      LatLon.parse_lat_lon (LatLon.PyStr s) =
      Ok (match LatLon.float_of_str (PyStr.strip s) with
          | Some x => Some (LatLon.div10 x)
          | None => None
          end)).
Proof.
  split; [exact parse_lat_lon_returns|]. split; [|split].
  - intros [s| | |] Hns; try reflexivity. now destruct (Hns s).
  - intros s body direction Hs Hdir.
    apply (parse_lat_lon_suffixed s body direction Hs).
    now apply bool_decide_eq_true_2.
  - intros s body c Hs Hdir.
    apply (parse_lat_lon_plain s body c Hs).
    now apply bool_decide_eq_false_2.
Qed.

Lemma parse_lat_lon_total_witness :
  LatLon.parse_lat_lon (LatLon.PyStr " 845W ") = Ok (Some (-169 # 2)%Q) /\
  LatLon.parse_lat_lon (LatLon.PyStr "253") = Ok (Some (253 # 10)%Q) /\
  LatLon.parse_lat_lon (F := Q) (LatLon.PyInt 253) = Ok None.
Proof.
  destruct (parse_lat_lon_total (F := Q)) as (_ & Hother & Hsuffixed & Hplain).
  split; [|split].
  - apply (Hsuffixed " 845W " "845" "W"%char); [reflexivity|].
    apply list_elem_of_In. simpl. tauto.
  - apply (Hplain "253" "25" "3"%char); [reflexivity|].
    intros Hin. apply list_elem_of_In in Hin. simpl in Hin.
    intuition discriminate.
  - apply Hother. intros s. discriminate.
Defined.

(** * More on the intensity classifier *)


(** X2: on the speeds it classifies, [wind_speed_to_category] is monotone:
    a higher speed never gets a lower category number. *)
Theorem wind_severity_monotone_on_classified (w1 w2 : Q) :
  (w1 <= w2)%Q ->
  Intensity.wind_speed_to_category w1 <> Intensity.unknown ->
  Intensity.wind_speed_to_category w2 <> Intensity.unknown ->
  (Intensity.severity (Intensity.wind_speed_to_category w1)
   <= Intensity.severity (Intensity.wind_speed_to_category w2))%Z.
Proof.
  intros Hle H1 H2.
  destruct (wind_speed_to_category_cases w1)
    as [[B1 E1]|[[B1 E1]|[[B1 E1]|[[B1 E1]|[[B1 E1]|[[B1 E1]|[[B1 E1]|[[B1 E1]|
        [[B1 E1]|[[B1 E1]|[[B1 E1]|[[B1 E1]|[B1 E1]]]]]]]]]]]]];
    rewrite E1 in H1 |- *; try (now destruct H1);
  destruct (wind_speed_to_category_cases w2)
    as [[B2 E2]|[[B2 E2]|[[B2 E2]|[[B2 E2]|[[B2 E2]|[[B2 E2]|[[B2 E2]|[[B2 E2]|
        [[B2 E2]|[[B2 E2]|[[B2 E2]|[[B2 E2]|[B2 E2]]]]]]]]]]]]];
    rewrite E2 in H2 |- *; try (now destruct H2);
  unfold Intensity.severity; simpl; try lia; exfalso; lra.
Qed.

Lemma wind_severity_monotone_on_classified_witness :
  (Intensity.severity (Intensity.wind_speed_to_category 62)
   <= Intensity.severity (Intensity.wind_speed_to_category 64))%Z.
Proof.
  apply (wind_severity_monotone_on_classified 62 64).
  - unfold Qle; simpl; lia.
  - vm_compute. discriminate.
  - vm_compute. discriminate.
Defined.



(** X4: every category name the two classifiers return has its own entry in
    [category_colors]; the colour of a classified wind speed is gray exactly
    when the category is 'Unknown', and two wind speeds with the same colour
    have the same category. *)
Theorem category_to_color_of_classifier (w1 w2 p : Q) :
  is_Some (Intensity.category_colors !! fst (Intensity.wind_speed_to_category w1)) /\
  is_Some (Intensity.category_colors !! fst (Intensity.pressure_to_category p)) /\
  (Intensity.category_to_color (fst (Intensity.wind_speed_to_category w1)) = "gray" <->
   Intensity.wind_speed_to_category w1 = Intensity.unknown) /\
  (Intensity.category_to_color (fst (Intensity.wind_speed_to_category w1)) =
   Intensity.category_to_color (fst (Intensity.wind_speed_to_category w2)) ->
   Intensity.wind_speed_to_category w1 = Intensity.wind_speed_to_category w2).
Proof.
  split; [|split; [|split]].
  - destruct (wind_speed_to_category_cases w1)
      as [[B ->]|[[B ->]|[[B ->]|[[B ->]|[[B ->]|[[B ->]|[[B ->]|[[B ->]|
          [[B ->]|[[B ->]|[[B ->]|[[B ->]|[B ->]]]]]]]]]]]]];
      vm_compute; eauto.
  - destruct (pressure_to_category_cases p)
      as [[B ->]|[[B ->]|[[B ->]|[[B ->]|[[B ->]|[[B ->]|[B ->]]]]]]];
      vm_compute; eauto.
  - destruct (wind_speed_to_category_cases w1)
      as [[B ->]|[[B ->]|[[B ->]|[[B ->]|[[B ->]|[[B ->]|[[B ->]|[[B ->]|
          [[B ->]|[[B ->]|[[B ->]|[[B ->]|[B ->]]]]]]]]]]]]];
      vm_compute; split; intros E; first [reflexivity | discriminate E].
  - destruct (wind_speed_to_category_cases w1)
      as [[B1 ->]|[[B1 ->]|[[B1 ->]|[[B1 ->]|[[B1 ->]|[[B1 ->]|[[B1 ->]|[[B1 ->]|
          [[B1 ->]|[[B1 ->]|[[B1 ->]|[[B1 ->]|[B1 ->]]]]]]]]]]]]];
    destruct (wind_speed_to_category_cases w2)
      as [[B2 ->]|[[B2 ->]|[[B2 ->]|[[B2 ->]|[[B2 ->]|[[B2 ->]|[[B2 ->]|[[B2 ->]|
          [[B2 ->]|[[B2 ->]|[[B2 ->]|[[B2 ->]|[B2 ->]]]]]]]]]]]]];
      vm_compute; intros E; first [reflexivity | discriminate E].
Qed.

(** * More on the radius table *)

Section RadiusOrder.
Import RadiusTable.
Open Scope Z_scope.

Lemma hours_lookup_pairs (r12 r24 r36 r48 r60 r72 r96 r120 h r : Z) :
  hours r12 r24 r36 r48 r60 r72 r96 r120 !! h = Some r ->
  In (h, r) [(12, r12); (24, r24); (36, r36); (48, r48);
             (60, r60); (72, r72); (96, r96); (120, r120)].
Proof.
  unfold hours. rewrite !lookup_insert, lookup_empty.
  repeat case_decide; intros [= <-]; subst; simpl; tauto.
Qed.

Lemma radius_lookup_tables (basin : string) (by_hour : gmap Z Z) :
  radius_lookup !! basin = Some by_hour ->
  by_hour = hours 26 41 55 70 88 102 151 220 \/
  by_hour = hours 26 39 53 65 76 92 119 152 \/
  by_hour = hours 34 49 66 81 95 120 137 156.
Proof.
  unfold radius_lookup. rewrite !lookup_insert, lookup_empty.
  repeat case_decide; intros [= <-]; tauto.
Qed.

Lemma hours_increasing (r12 r24 r36 r48 r60 r72 r96 r120 h1 h2 r1 r2 : Z) :
  r12 < r24 < r36 -> r36 < r48 < r60 -> r60 < r72 < r96 -> r96 < r120 ->
  hours r12 r24 r36 r48 r60 r72 r96 r120 !! h1 = Some r1 ->
  hours r12 r24 r36 r48 r60 r72 r96 r120 !! h2 = Some r2 ->
  h1 < h2 -> r1 < r2.
Proof.
  intros Ha Hb Hc Hd H1%hours_lookup_pairs H2%hours_lookup_pairs Hlt.
  simpl in H1, H2.
  repeat (destruct H1 as [[= <- <-]|H1]); try contradiction;
  repeat (destruct H2 as [[= <- <-]|H2]); try contradiction; lia.
Qed.

End RadiusOrder.

(** X5: within a basin the radius grows with the forecast hour: of two hours
    that [get_radius] knows, the later one has the strictly larger
    radius. *)
Theorem get_radius_increasing (basin : string) (h1 h2 r1 r2 : Z) :
  RadiusTable.get_radius basin h1 = Some r1 ->
  RadiusTable.get_radius basin h2 = Some r2 ->
  (h1 < h2)%Z -> (r1 < r2)%Z.
Proof.
  unfold RadiusTable.get_radius.
  destruct (RadiusTable.radius_lookup !! basin) as [by_hour|] eqn:Hb; [|discriminate].
  destruct (by_hour !! h1) as [r1'|] eqn:E1; [|discriminate].
  destruct (by_hour !! h2) as [r2'|] eqn:E2; [|discriminate].
  intros [= <-] [= <-].
  destruct (radius_lookup_tables _ _ Hb) as [->|[->| ->]];
    eapply hours_increasing; try exact E1; try exact E2; lia.
Qed.

Lemma get_radius_increasing_witness : (39 < 152)%Z.
Proof.
  apply (get_radius_increasing "EP" 24 120 39 152).
  - vm_compute. reflexivity.
  - vm_compute. reflexivity.
  - lia.
Defined.

(** X6: the basins WP, IO, SH and SL have the radii of AL at every hour. *)
Theorem get_radius_reuses_atlantic (basin : string) (forecast_hour : Z) :
  In basin ["WP"; "IO"; "SH"; "SL"] ->
  RadiusTable.get_radius basin forecast_hour = RadiusTable.get_radius "AL" forecast_hour.
Proof.
  intros Hin. unfold RadiusTable.get_radius.
  replace (RadiusTable.radius_lookup !! "AL")
    with (Some (RadiusTable.hours 26 41 55 70 88 102 151 220))
    by (vm_compute; reflexivity).
  simpl in Hin.
  destruct Hin as [<-|[<-|[<-|[<-|[]]]]];
    match goal with
    | |- context [RadiusTable.radius_lookup !! ?b] =>
        replace (RadiusTable.radius_lookup !! b)
          with (Some (RadiusTable.hours 26 41 55 70 88 102 151 220))
          by (vm_compute; reflexivity)
    end; reflexivity.
Qed.

Lemma get_radius_reuses_atlantic_witness :
  RadiusTable.get_radius "SH" 96 = RadiusTable.get_radius "AL" 96.
Proof.
  apply (get_radius_reuses_atlantic "SH" 96). simpl. tauto.
Defined.

(** * More on the cone builder *)

Section ConeOrder.
Import RadiusTable ConeBuilder.
Context {G : Type} `{Geometry G}.

Lemma first_match_decompose (models : list string) (track_rows : list (ForecastRow G)) :
  first_match models track_rows <> [] ->
  exists before model after,
    models = (before ++ model :: after)%list /\
    first_match models track_rows = filter (fun r => ModelName r = model) track_rows /\
    Forall (fun m => filter (fun r : ForecastRow G => ModelName r = m) track_rows = []) before.
Proof.
  induction models as [|m rest IH]; simpl; [congruence|].
  destruct (filter (fun r => ModelName r = m) track_rows) as [|r sel] eqn:Hsel.
  - intros Hne. destruct (IH Hne) as (before & model & after & -> & Hfm & Hbefore).
    exists (m :: before), model, after. repeat split; [exact Hfm|].
    constructor; assumption.
  - intros _. exists [], m, rest. repeat split; [now rewrite Hsel | constructor].
Qed.

Lemma first_match_empty (models : list string) (track_rows : list (ForecastRow G)) :
  first_match models track_rows = [] ->
  Forall (fun m => filter (fun r : ForecastRow G => ModelName r = m) track_rows = []) models.
Proof.
  induction models as [|m rest IH]; simpl; [constructor|].
  destruct (filter (fun r => ModelName r = m) track_rows) as [|r sel] eqn:Hsel;
    [|discriminate].
  intros Hnone. constructor; [exact Hsel | now apply IH].
Qed.

Lemma buffer_rows_omap (track_rows : list (ForecastRow G)) (buffered : list G) :
  buffer_rows track_rows buffered = (buffered ++ omap buffer_of_row track_rows)%list.
Proof.
  revert buffered. induction track_rows as [|r rest IH]; intros buffered; simpl.
  - now rewrite app_nil_r.
  - unfold buffer_of_row at 1.
    destruct (get_radius (Basin r) (ForecastHour r)); simpl.
    + now rewrite IH, <- app_assoc.
    + apply IH.
Qed.

Lemma insert_sorted_perm {R : Type} (key : R -> Z) (r : R) (l : list R) :
  insert_sorted key r l ≡ₚ r :: l.
Proof.
  induction l as [|x rest IH]; simpl; [reflexivity|].
  destruct (key r <=? key x)%Z; [reflexivity|].
  rewrite IH. apply Permutation_swap.
Qed.

Lemma sort_perm {R : Type} (key : R -> Z) (l : list R) :
  foldr (insert_sorted key) [] l ≡ₚ l.
Proof.
  induction l as [|x rest IH]; simpl; [reflexivity|].
  now rewrite insert_sorted_perm, IH.
Qed.

Lemma insert_sorted_sorted {R : Type} (key : R -> Z) (r : R) (l : list R) :
  Sorted Z.le (map key l) -> Sorted Z.le (map key (insert_sorted key r l)).
Proof.
  induction l as [|x rest IH]; simpl; intros Hs.
  - repeat constructor.
  - destruct (key r <=? key x)%Z eqn:Hle.
    + apply Z.leb_le in Hle. simpl. constructor; [exact Hs | now constructor].
    + apply Z.leb_gt in Hle. simpl.
      apply Sorted_inv in Hs as [Hrest Hhd].
      constructor; [now apply IH|].
      destruct rest as [|y rest']; simpl.
      * constructor. lia.
      * destruct (key r <=? key y)%Z; simpl; constructor; [lia|].
        now inversion Hhd.
Qed.

Lemma sort_sorted {R : Type} (key : R -> Z) (l : list R) :
  Sorted Z.le (map key (foldr (insert_sorted key) [] l)).
Proof.
  induction l as [|x rest IH]; simpl; [constructor|].
  now apply insert_sorted_sorted.
Qed.

Lemma filter_model_nil (m : string) (track_rows : list (ForecastRow G)) :
  filter (fun r : ForecastRow G => ModelName r = m) track_rows = [] ->
  Forall (fun r => ModelName r <> m) track_rows.
Proof.
  induction track_rows as [|r rest IH]; [constructor|].
  rewrite filter_cons. destruct (decide (ModelName r = m)) as [Heq|Hne]; [discriminate|].
  intros Hnil. constructor; [exact Hne | now apply IH].
Qed.

Lemma no_model_of (models : list string) (track_rows : list (ForecastRow G)) :
  Forall (fun m => filter (fun r : ForecastRow G => ModelName r = m) track_rows = []) models ->
  Forall (fun r => ~ In (ModelName r) models) track_rows.
Proof.
  intros Hmodels. apply Forall_forall. intros r Hr Hin.
  rewrite Forall_forall in Hmodels.
  specialize (Hmodels (ModelName r) ltac:(now apply list_elem_of_In)).
  apply filter_model_nil in Hmodels. rewrite Forall_forall in Hmodels.
  now apply (Hmodels r Hr).
Qed.

End ConeOrder.

(** X7: the filter keeps the rows of one model, the first of the preference
    list that has any row in the frame, in the order they had, under the
    header and CRS of the frame; when no row comes from a listed model it
    returns [gpd.GeoDataFrame()]. *)
Theorem filter_adeck_gdf_for_official_model_preference {G : Type}
    (adeck_gdf : ConeBuilder.GeoDataFrame (ConeBuilder.ForecastRow G)) :
  "ModelName" ∈ ConeBuilder.columns adeck_gdf ->
  (ConeBuilder.filter_adeck_gdf_for_official_model adeck_gdf = Ok ConeBuilder.empty_frame /\
   Forall (fun r => ~ In (ConeBuilder.ModelName r) ConeBuilder.models_to_try)
          (ConeBuilder.rows adeck_gdf)) \/
  (exists before model after,
      ConeBuilder.models_to_try = (before ++ model :: after)%list /\
      ConeBuilder.filter_adeck_gdf_for_official_model adeck_gdf =
        Ok {| ConeBuilder.columns := ConeBuilder.columns adeck_gdf;
              ConeBuilder.rows :=
                filter (fun r => ConeBuilder.ModelName r = model) (ConeBuilder.rows adeck_gdf);
              ConeBuilder.crs := ConeBuilder.crs adeck_gdf |} /\
      filter (fun r => ConeBuilder.ModelName r = model) (ConeBuilder.rows adeck_gdf) <> [] /\
      Forall (fun r => ~ In (ConeBuilder.ModelName r) before) (ConeBuilder.rows adeck_gdf)).
Proof.
  intros Hcol.
  rewrite (filter_adeck_gdf_for_official_model_spec adeck_gdf Hcol).
  unfold ConeBuilder.authoritative.
  destruct (ConeBuilder.first_match ConeBuilder.models_to_try (ConeBuilder.rows adeck_gdf))
    as [|r sel] eqn:Hfm.
  - left. split; [reflexivity|]. now apply no_model_of, first_match_empty.
  - right.
    destruct (first_match_decompose ConeBuilder.models_to_try (ConeBuilder.rows adeck_gdf))
      as (before & model & after & Hmodels & Hsel & Hbefore); [rewrite Hfm; discriminate|].
    exists before, model, after. rewrite Hfm in Hsel.
    split; [exact Hmodels|]. rewrite <- Hsel.
    split; [reflexivity|]. split; [discriminate|]. now apply no_model_of.
Qed.

Lemma filter_adeck_gdf_for_official_model_preference_witness :
  (ConeBuilder.filter_adeck_gdf_for_official_model Symbolic.two_points = Ok ConeBuilder.empty_frame /\
   Forall (fun r => ~ In (ConeBuilder.ModelName r) ConeBuilder.models_to_try)
          (ConeBuilder.rows Symbolic.two_points)) \/
  (exists before model after,
      ConeBuilder.models_to_try = (before ++ model :: after)%list /\
      ConeBuilder.filter_adeck_gdf_for_official_model Symbolic.two_points =
        Ok {| ConeBuilder.columns := ConeBuilder.columns Symbolic.two_points;
              ConeBuilder.rows :=
                filter (fun r => ConeBuilder.ModelName r = model)
                       (ConeBuilder.rows Symbolic.two_points);
              ConeBuilder.crs := ConeBuilder.crs Symbolic.two_points |} /\
      filter (fun r => ConeBuilder.ModelName r = model)
             (ConeBuilder.rows Symbolic.two_points) <> [] /\
      Forall (fun r => ~ In (ConeBuilder.ModelName r) before)
             (ConeBuilder.rows Symbolic.two_points)).
Proof.
  apply (filter_adeck_gdf_for_official_model_preference Symbolic.two_points).
  apply list_elem_of_In. simpl. tauto.
Defined.

(** X9 at a track: the two buffers of [two_points] are inside its merged
    polygon. *)
Lemma create_uncertainty_cone_many_buffers_witness :
  let buffered_geometries :=
    ConeBuilder.track_buffers ConeBuilder.EPSG_4326 (ConeBuilder.EPSG 32617)
      Symbolic.two_points in
  ConeBuilder.create_uncertainty_cone Symbolic.two_points =
    Ok {| ConeBuilder.columns := ["geometry"];
          ConeBuilder.rows :=
            [ConeBuilder.transform (ConeBuilder.EPSG 32617) ConeBuilder.EPSG_4326
               (ConeBuilder.final_cone_polygon buffered_geometries)];
          ConeBuilder.crs := Some ConeBuilder.EPSG_4326 |} /\
  forall b, In b buffered_geometries ->
            ConeBuilder.covers (ConeBuilder.final_cone_polygon buffered_geometries) b.
Proof.
  apply (create_uncertainty_cone_many_buffers Symbolic.two_points
           ConeBuilder.EPSG_4326 (ConeBuilder.EPSG 32617));
    try (apply list_elem_of_In; simpl; tauto);
    try reflexivity;
    vm_compute; first [discriminate | lia].
Defined.

(** X10: on a frame that has the columns, a CRS and an authoritative track,
    the cone is built from the authoritative rows taken in ascending
    forecast hour: each row with a radius gives one buffer, in that order,
    and a row without one gives none. *)
Theorem create_uncertainty_cone_in_hour_order {G : Type} `{ConeBuilder.Geometry G}
    (df : ConeBuilder.GeoDataFrame (ConeBuilder.ForecastRow G))
    (source utm : ConeBuilder.CRS) :
  "ModelName" ∈ ConeBuilder.columns df -> "ForecastHour" ∈ ConeBuilder.columns df ->
  "Basin" ∈ ConeBuilder.columns df -> "geometry" ∈ ConeBuilder.columns df ->
  ConeBuilder.crs df = Some source ->
  ConeBuilder.authoritative df <> [] ->
  ConeBuilder.utm_of_bounds
    (map ConeBuilder.geometry (ConeBuilder.sorted_track df)) = Some utm ->
  exists ordered_rows,
    ordered_rows ≡ₚ ConeBuilder.authoritative df /\
    Sorted Z.le (map ConeBuilder.ForecastHour ordered_rows) /\
    ConeBuilder.create_uncertainty_cone df =
    match omap ConeBuilder.buffer_of_row
               (map (ConeBuilder.reproject_row source utm) ordered_rows) with
    | [] => Ok ConeBuilder.empty_frame
    | buffered_geometries =>
        Ok {| ConeBuilder.columns := ["geometry"];
              ConeBuilder.rows :=
                [ConeBuilder.transform utm ConeBuilder.EPSG_4326
                   (ConeBuilder.final_cone_polygon buffered_geometries)];
              ConeBuilder.crs := Some ConeBuilder.EPSG_4326 |}
    end.
Proof.
  intros Hmodel Hhour Hbasin Hgeom Hcrs Hauth Hutm.
  exists (ConeBuilder.sorted_track df). split; [|split].
  - apply sort_perm.
  - apply sort_sorted.
  - rewrite (create_uncertainty_cone_run df source utm) by assumption.
    unfold ConeBuilder.track_buffers. rewrite buffer_rows_omap. reflexivity.
Qed.

Lemma create_uncertainty_cone_in_hour_order_witness :
  exists ordered_rows,
    ordered_rows ≡ₚ ConeBuilder.authoritative Symbolic.two_points /\
    Sorted Z.le (map ConeBuilder.ForecastHour ordered_rows) /\
    ConeBuilder.create_uncertainty_cone Symbolic.two_points =
    match omap ConeBuilder.buffer_of_row
               (map (ConeBuilder.reproject_row ConeBuilder.EPSG_4326 (ConeBuilder.EPSG 32617))
                    ordered_rows) with
    | [] => Ok ConeBuilder.empty_frame
    | buffered_geometries =>
        Ok {| ConeBuilder.columns := ["geometry"];
              ConeBuilder.rows :=
                [ConeBuilder.transform (ConeBuilder.EPSG 32617) ConeBuilder.EPSG_4326
                   (ConeBuilder.final_cone_polygon buffered_geometries)];
              ConeBuilder.crs := Some ConeBuilder.EPSG_4326 |}
    end.
Proof.
  apply (create_uncertainty_cone_in_hour_order Symbolic.two_points
           ConeBuilder.EPSG_4326 (ConeBuilder.EPSG 32617));
    try (apply list_elem_of_In; simpl; tauto);
    try reflexivity.
  vm_compute. discriminate.
Defined.

(** X11: whatever frame it is given, when [create_uncertainty_cone] returns
    it returns either [gpd.GeoDataFrame()] or a frame with the one column
    'geometry', one row and the CRS EPSG:4326. *)
Theorem create_uncertainty_cone_returns {G : Type} `{ConeBuilder.Geometry G}
    (input_gdf : ConeBuilder.GeoDataFrame (ConeBuilder.ForecastRow G))
    (cone_gdf : ConeBuilder.GeoDataFrame G) :
  ConeBuilder.create_uncertainty_cone input_gdf = Ok cone_gdf ->
  cone_gdf = ConeBuilder.empty_frame \/
  exists cone_polygon,
    cone_gdf = {| ConeBuilder.columns := ["geometry"];
                  ConeBuilder.rows := [cone_polygon];
                  ConeBuilder.crs := Some ConeBuilder.EPSG_4326 |}.
Proof.
  unfold ConeBuilder.create_uncertainty_cone.
  destruct (ConeBuilder.filter_adeck_gdf_for_official_model input_gdf) as [ofcl|e];
    [|discriminate].
  cbn [mbind result_bind].
  destruct (ConeBuilder.sort_values "ForecastHour" ConeBuilder.ForecastHour ofcl)
    as [sorted|e]; [|discriminate].
  cbn [mbind result_bind].
  destruct (ConeBuilder.estimate_utm_crs sorted) as [utm|e]; [|discriminate].
  cbn [mbind result_bind].
  destruct (ConeBuilder.to_crs ConeBuilder.reproject_row utm sorted) as [metric|e] eqn:Hto;
    [|discriminate].
  cbn [mbind result_bind].
  match goal with
  | |- context [mbind _ ?checked] => destruct checked as [[]|e]; [|discriminate]
  end.
  cbn [mbind result_bind].
  destruct (ConeBuilder.buffer_rows (ConeBuilder.rows metric) []) as [|b bufs].
  - intros [= <-]. now left.
  - unfold ConeBuilder.to_crs. cbn [ConeBuilder.rows ConeBuilder.columns ConeBuilder.crs].
    rewrite decide_True by (apply list_elem_of_singleton; reflexivity).
    unfold ConeBuilder.to_crs in Hto.
    destruct (decide ("geometry" ∈ ConeBuilder.columns sorted)); [|discriminate].
    destruct (ConeBuilder.crs sorted) as [src|]; [|discriminate].
    injection Hto as <-. cbn [ConeBuilder.crs].
    intros [= <-]. right. eexists. reflexivity.
Qed.

Lemma create_uncertainty_cone_returns_witness :
  let cone_gdf :=
    {| ConeBuilder.columns := ["geometry"];
       ConeBuilder.rows :=
         [Symbolic.Transform (ConeBuilder.EPSG 32617) (ConeBuilder.EPSG 4326)
            (Symbolic.UnaryUnion [])];
       ConeBuilder.crs := Some (ConeBuilder.EPSG 4326) |} in
  cone_gdf = ConeBuilder.empty_frame \/
  exists cone_polygon : Symbolic.shape,
    cone_gdf = {| ConeBuilder.columns := ["geometry"];
                  ConeBuilder.rows := [cone_polygon];
                  ConeBuilder.crs := Some ConeBuilder.EPSG_4326 |}.
Proof.
  apply (create_uncertainty_cone_returns Symbolic.one_point).
  vm_compute. reflexivity.
Defined.

(** * More on label cleaning *)

Section LabelsMore.
Import PyStr Labels.

Lemma split_process_string (s : string) :
  split (process_string s) = kept (split s).
Proof.
  rewrite process_string_kept.
  apply split_join_words, kept_words, split_words.
Qed.

Lemma take_clean_prefix (words : list string) :
  exists dropped,
    words = (take_clean words ++ dropped)%list /\
    Forall (fun w => any_isdigit w = false) (take_clean words) /\
    match dropped with
    | [] => True
    | d :: _ => any_isdigit d = true
    end.
Proof.
  induction words as [|w rest (dropped & Heq & Hclean & Hdrop)]; simpl.
  - exists []. repeat split. constructor.
  - destruct (any_isdigit w) eqn:Hw.
    + exists (w :: rest). repeat split; [constructor | exact Hw].
    + exists dropped. split; [simpl; now rewrite <- Heq|].
      split; [now constructor | exact Hdrop].
Qed.

Lemma take_clean_app_digit (pre : list string) (d : string) (rest : list string) :
  any_isdigit d = true -> take_clean (pre ++ d :: rest) = take_clean pre.
Proof.
  intros Hd. induction pre as [|w pre IH]; simpl.
  - now rewrite Hd.
  - destruct (any_isdigit w); [reflexivity | now rewrite IH].
Qed.

Lemma take_clean_all (words : list string) :
  Forall (fun w => any_isdigit w = false) words -> take_clean words = words.
Proof.
  induction 1 as [|w rest Hw Hrest IH]; simpl; [reflexivity|].
  now rewrite Hw, IH.
Qed.

End LabelsMore.

(** X12: the words of a cleaned label are the leading words of the label:
    the first word is always among them, none after the first has a digit,
    and what is dropped starts with a word that has one. *)
Theorem process_string_keeps_leading_words (s : string) :
  exists dropped,
    PyStr.split s = (PyStr.split (Labels.process_string s) ++ dropped)%list /\
    (PyStr.split s <> [] -> PyStr.split (Labels.process_string s) <> []) /\
    Forall (fun w => PyStr.any_isdigit w = false)
           (tail (PyStr.split (Labels.process_string s))) /\
    match dropped with
    | [] => True
    | d :: _ => PyStr.any_isdigit d = true
    end.
Proof.
  rewrite split_process_string.
  destruct (PyStr.split s) as [|w rest]; simpl.
  - exists []. repeat split; [congruence | constructor].
  - destruct (take_clean_prefix rest) as (dropped & Heq & Hclean & Hdrop).
    exists dropped. split; [now rewrite <- Heq|].
    split; [discriminate|]. split; assumption.
Qed.

(** X13: two labels with the same words up to a word with a digit in it,
    past the first word, are cleaned to the same label. *)
Theorem process_string_same_key (s1 s2 : string) (first_word digit_word : string)
    (between rest1 rest2 : list string) :
  PyStr.split s1 = (first_word :: between ++ digit_word :: rest1)%list ->
  PyStr.split s2 = (first_word :: between ++ digit_word :: rest2)%list ->
  PyStr.any_isdigit digit_word = true ->
  Labels.process_string s1 = Labels.process_string s2.
Proof.
  intros H1 H2 Hd. rewrite !process_string_kept, H1, H2. simpl.
  now rewrite !take_clean_app_digit.
Qed.

Lemma process_string_same_key_witness :
  Labels.process_string "Acme Holdings 0042 Warehouse" =
  Labels.process_string "Acme  Holdings 0042 Head Office".
Proof.
  apply (process_string_same_key _ _ "Acme" "0042" ["Holdings"] ["Warehouse"] ["Head"; "Office"]);
    reflexivity.
Defined.

(** X14: a label with no digit in any word after the first is kept whole,
    with each run of whitespace made one space and none left at the
    ends. *)
Theorem process_string_without_digits (s : string) :
  Forall (fun w => PyStr.any_isdigit w = false) (tail (PyStr.split s)) ->
  Labels.process_string s = PyStr.join " " (PyStr.split s).
Proof.
  intros Hclean. rewrite process_string_kept.
  destruct (PyStr.split s) as [|w rest]; [reflexivity|].
  simpl in *. now rewrite take_clean_all.
Qed.

Lemma process_string_without_digits_witness :
  Labels.process_string "  47 North   Holdings " = PyStr.join " " ["47"; "North"; "Holdings"].
Proof.
  apply (process_string_without_digits "  47 North   Holdings ").
  repeat constructor.
Defined.

(** * More on the coordinate parser *)

Section StripFacts.
Import PyStr.

Lemma rstrip_by_idempotent (p : ascii -> bool) (s : string) :
  rstrip_by p (rstrip_by p s) = rstrip_by p s.
Proof.
  induction s as [|c s IH]; [reflexivity|].
  simpl. destruct (p c && is_empty (rstrip_by p s)) eqn:Hdrop; [reflexivity|].
  simpl. now rewrite IH, Hdrop.
Qed.

Lemma lstrip_by_idempotent (p : ascii -> bool) (s : string) :
  lstrip_by p (lstrip_by p s) = lstrip_by p s.
Proof.
  induction s as [|c s IH]; [reflexivity|].
  simpl. destruct (p c) eqn:Hc; [exact IH|].
  simpl. now rewrite Hc.
Qed.

(** What is left of a string stripped on the left is empty or starts with a
    character that is not stripped; stripping it on the right keeps that. *)
Lemma lstrip_rstrip_of_lstrip (p : ascii -> bool) (s : string) :
  lstrip_by p (rstrip_by p (lstrip_by p s)) = rstrip_by p (lstrip_by p s).
Proof.
  induction s as [|c s IH]; [reflexivity|].
  simpl. destruct (p c) eqn:Hc; [exact IH|].
  simpl. rewrite Hc. simpl. now rewrite Hc.
Qed.

Lemma strip_idempotent (s : string) : strip (strip s) = strip s.
Proof.
  unfold strip. rewrite lstrip_rstrip_of_lstrip. apply rstrip_by_idempotent.
Qed.

End StripFacts.

(** X15: whitespace around the text of a cell makes no difference to
    [parse_lat_lon]. *)
Theorem parse_lat_lon_ignores_surrounding_whitespace {F : Type} `{LatLon.FloatOps F}
    (s : string) :
  LatLon.parse_lat_lon (LatLon.PyStr s) = LatLon.parse_lat_lon (LatLon.PyStr (PyStr.strip s)).
Proof.
  unfold LatLon.parse_lat_lon. cbv zeta. now rewrite strip_idempotent.
Qed.

(** X16: the same digits with the opposite letter give the opposite value:
    what [parse_lat_lon] returns for a cell that ends in S, or in W, is the
    negation of what it returns for the cell that ends in N, or in E. *)
Theorem parse_lat_lon_opposite_direction {F : Type} `{LatLon.FloatOps F}
    (s_positive s_negative body : string) (degrees : option F) :
  (PyStr.strip s_positive = body ++ "N" /\ PyStr.strip s_negative = body ++ "S") \/
  (PyStr.strip s_positive = body ++ "E" /\ PyStr.strip s_negative = body ++ "W") ->
  LatLon.parse_lat_lon (LatLon.PyStr s_positive) = Ok degrees ->
  LatLon.parse_lat_lon (LatLon.PyStr s_negative) = Ok (LatLon.fneg <$> degrees).
Proof.
  intros [[Hp Hn]|[Hp Hn]];
    rewrite (parse_lat_lon_suffixed _ _ _ Hp) by reflexivity;
    rewrite (parse_lat_lon_suffixed _ _ _ Hn) by reflexivity;
    intros [= <-]; destruct (LatLon.float_of_str body); reflexivity.
Qed.

Lemma parse_lat_lon_opposite_direction_witness :
  LatLon.parse_lat_lon (LatLon.PyStr "845W ") = Ok (Some (-(169 # 2))%Q).
Proof.
  exact (parse_lat_lon_opposite_direction " 845E" "845W " "845" (Some (169 # 2)%Q)
           (or_intror (conj eq_refl eq_refl)) eq_refl).
Defined.

(** * More on the storm name inference *)

Section StormNameMore.
Import PyStr StormName.

Lemma isdigit_to_upper (c : ascii) : isdigit (to_upper c) = isdigit c.
Proof. destruct c as [[] [] [] [] [] [] [] []]; reflexivity. Qed.

Lemma isdigit_to_lower (c : ascii) : isdigit (to_lower c) = isdigit c.
Proof. destruct c as [[] [] [] [] [] [] [] []]; reflexivity. Qed.

Lemma letter_not_digit (c : ascii) : is_letter c = true -> isdigit c = false.
Proof.
  destruct c as [[] [] [] [] [] [] [] []]; vm_compute; intros E;
    first [reflexivity | discriminate E].
Qed.

Lemma title_from_digits (cased : bool) (s : string) :
  any_isdigit (title_from cased s) = any_isdigit s.
Proof.
  revert cased. induction s as [|c s IH]; intros cased; [reflexivity|].
  simpl. rewrite IH.
  destruct cased; now rewrite ?isdigit_to_upper, ?isdigit_to_lower.
Qed.

Lemma title_proper (name : string) : proper_name name -> proper_name (title name).
Proof.
  intros [Hne Hd]. split.
  - destruct name; [congruence | discriminate].
  - unfold title. now rewrite title_from_digits.
Qed.

Lemma all_letters_no_digit (s : string) :
  all_letters s = true -> any_isdigit s = false.
Proof.
  induction s as [|c s IH]; simpl; [reflexivity|].
  intros [Hc Hs]%andb_true_iff.
  now rewrite (letter_not_digit c Hc), IH.
Qed.

Lemma isalpha_proper (s : string) : isalpha s = true -> proper_name s.
Proof.
  unfold isalpha. intros [Hne Hl]%andb_true_iff. split.
  - destruct s; [discriminate | discriminate].
  - now apply all_letters_no_digit.
Qed.

Lemma strip_basin_code_proper (codes : list string) (name : string) :
  proper_name name -> proper_name (strip_basin_code codes name).
Proof.
  intros Hname. induction codes as [|code rest IH]; simpl; [exact Hname|].
  destruct (endswith name code); [|exact IH].
  destruct (isalpha _) eqn:Halpha; [now apply isalpha_proper | exact IH].
Qed.

Lemma potential_names_nonempty (lines : list string) :
  Forall (fun name => name <> EmptyString) (potential_names lines).
Proof.
  unfold potential_names. induction lines as [|line rest IH]; simpl; [constructor|].
  destruct (potential_name line) as [name|] eqn:Hname; simpl; [|exact IH].
  constructor; [|exact IH].
  unfold potential_name in Hname.
  destruct (28 <=? _)%nat; [|discriminate].
  destruct (is_empty _) eqn:He; [discriminate|].
  injection Hname as <-. intros Habs. rewrite Habs in He. discriminate.
Qed.

Lemma first_seen_incl (l : list string) (x : string) :
  In x (first_seen l) -> In x l.
Proof.
  revert x. induction l as [|y rest IH]; intros x; simpl; [tauto|].
  intros [->|Hin]; [now left|].
  right. apply IH. now apply List.filter_In in Hin as [Hin _].
Qed.

Lemma candidates_proper (lines : list string) :
  Forall proper_name (candidates lines).
Proof.
  apply Forall_forall. intros name Hin%list_elem_of_In.
  unfold candidates in Hin. apply List.filter_In in Hin as [Hin Hcand].
  apply first_seen_incl in Hin.
  pose proof (potential_names_nonempty lines) as Hne.
  rewrite Forall_forall in Hne. split.
  - apply Hne. now apply list_elem_of_In.
  - unfold is_candidate in Hcand.
    apply andb_true_iff in Hcand as [[_ Hd]%andb_true_iff _].
    now apply negb_true_iff in Hd.
Qed.

Lemma list_remove_incl (x y : string) (l : list string) :
  In y (list_remove x l) -> In y l.
Proof.
  induction l as [|z rest IH]; simpl; [tauto|].
  destruct (String.eqb z x); [now right|].
  intros [->|Hin]; [now left | right; now apply IH].
Qed.

Lemma list_remove_nonempty (x : string) (l : list string) :
  l <> [] -> l <> [x] -> list_remove x l <> [].
Proof.
  destruct l as [|z rest]; [congruence|]. simpl. intros _ Hne.
  destruct (String.eqb_spec z x) as [->|_]; [|discriminate].
  intros ->. now apply Hne.
Qed.

Lemma last_in (l : list string) (d : string) : l <> [] -> In (List.last l d) l.
Proof.
  induction l as [|x rest IH]; [congruence|]. intros _.
  destruct rest as [|y rest']; [now left|].
  right. apply IH. discriminate.
Qed.

Lemma common_form_proper (names : list string) (c : string) :
  Forall proper_name names -> common_form names = Some c -> proper_name c.
Proof.
  unfold common_form. intros Hnames.
  destruct names as [|n rest]; [discriminate|].
  cbn [map]. destruct (forallb _ _); [|discriminate].
  intros Heq.
  replace c with (strip_basin_code basin_codes n) by congruence.
  apply strip_basin_code_proper.
  now inversion Hnames.
Qed.

Lemma infer_name_proper (names : list string) :
  Forall proper_name names -> proper_name (infer_name names).
Proof.
  intros Hnames. unfold infer_name.
  destruct names as [|n rest] eqn:Hn; [split; [discriminate | reflexivity]|].
  rewrite <- Hn in *.
  destruct (bool_decide (names = ["INVEST"])) eqn:Hinv;
    [split; [discriminate | reflexivity]|].
  apply bool_decide_eq_false_1 in Hinv.
  assert (Hothers : Forall proper_name (list_remove "INVEST" names)).
  { apply Forall_forall. intros x Hx%list_elem_of_In%list_remove_incl.
    rewrite Forall_forall in Hnames. now apply Hnames, list_elem_of_In. }
  assert (Hne : list_remove "INVEST" names <> []).
  { apply list_remove_nonempty; [rewrite Hn; discriminate | exact Hinv]. }
  destruct (list_remove "INVEST" names) as [|a [|b more]] eqn:Hrem; [congruence| |].
  - now inversion Hothers.
  - destruct (common_form (a :: b :: more)) as [c|] eqn:Hc.
    + now apply (common_form_proper _ _ Hothers).
    + rewrite Forall_forall in Hothers. apply Hothers, list_elem_of_In.
      apply last_in. discriminate.
Qed.

Lemma filter_neq_idempotent (x : string) (l : list string) :
  List.filter (fun y => negb (String.eqb y x))
    (List.filter (fun y => negb (String.eqb y x)) l) =
  List.filter (fun y => negb (String.eqb y x)) l.
Proof.
  rewrite filter_filter. apply List.filter_ext. intros y.
  now destruct (String.eqb y x).
Qed.

Lemma filter_neq_comm (x y : string) (l : list string) :
  List.filter (fun z => negb (String.eqb z x))
    (List.filter (fun z => negb (String.eqb z y)) l) =
  List.filter (fun z => negb (String.eqb z y))
    (List.filter (fun z => negb (String.eqb z x)) l).
Proof.
  rewrite !filter_filter. apply List.filter_ext. intros z. apply andb_comm.
Qed.

Lemma first_seen_later_copy_filtered (x : string) (a b : list string) :
  List.filter (fun y => negb (String.eqb y x)) (first_seen (a ++ x :: b)) =
  List.filter (fun y => negb (String.eqb y x)) (first_seen (a ++ b)).
Proof.
  induction a as [|z a IH]; simpl.
  - rewrite String.eqb_refl. simpl. apply filter_neq_idempotent.
  - destruct (negb (String.eqb z x)); [f_equal|];
      rewrite (filter_neq_comm x z (first_seen (a ++ x :: b))),
              (filter_neq_comm x z (first_seen (a ++ b)));
      now rewrite IH.
Qed.

(** A name that appeared before does not appear again among the distinct
    names. *)
Lemma first_seen_later_copy (x : string) (a b : list string) :
  In x a -> first_seen (a ++ x :: b) = first_seen (a ++ b).
Proof.
  induction a as [|z a IH]; simpl; [tauto|].
  intros [->|Hin].
  - f_equal. apply first_seen_later_copy_filtered.
  - f_equal. now rewrite IH.
Qed.

Lemma potential_names_app (a b : list string) :
  potential_names (a ++ b) = (potential_names a ++ potential_names b)%list.
Proof. unfold potential_names. apply omap_app. Qed.

End StormNameMore.

(** X17: whatever the file holds, the inferred storm name is not empty and
    has no digit in it. *)
Theorem extract_storm_info_proper_name (lines : list string) :
  StormName.proper_name (StormName.extract_storm_info lines).
Proof.
  unfold StormName.extract_storm_info.
  rewrite storm_names_candidates, choose_name_infer_name.
  apply title_proper, infer_name_proper, candidates_proper.
Qed.

(** X18: a line with fewer than 28 whitespace-separated fields has no part
    in the name: the file without it gives the same name. *)
Theorem extract_storm_info_ignores_short_lines (before after : list string) (line : string) :
  (length (PyStr.split (PyStr.strip line)) < 28)%nat ->
  StormName.extract_storm_info (before ++ line :: after) =
  StormName.extract_storm_info (before ++ after).
Proof.
  intros Hshort. unfold StormName.extract_storm_info.
  rewrite !storm_names_candidates. unfold StormName.candidates.
  rewrite !potential_names_app. unfold StormName.potential_names at 2. simpl.
  replace (StormName.potential_name line) with (@None string); [reflexivity|].
  unfold StormName.potential_name.
  destruct (28 <=? _)%nat eqn:Hle; [|reflexivity].
  apply Nat.leb_le in Hle. lia.
Qed.

Lemma extract_storm_info_ignores_short_lines_witness :
  StormName.extract_storm_info
    ([StormName.adeck_line "0" "HELENE"] ++ "AL, 09, 2024092500, 03, CARQ, 0, 253N, 845W, 65, 985, GORDON" ::
     [StormName.adeck_line "12" "HELENE"]) =
  StormName.extract_storm_info
    ([StormName.adeck_line "0" "HELENE"] ++ [StormName.adeck_line "12" "HELENE"]).
Proof.
  apply (extract_storm_info_ignores_short_lines
           [StormName.adeck_line "0" "HELENE"] [StormName.adeck_line "12" "HELENE"]).
  vm_compute. lia.
Defined.

(** X19: a line that proposes a name an earlier line has proposed has no
    part in the name either: how often a name is proposed makes no
    difference. *)
Theorem extract_storm_info_ignores_repeats (before after : list string) (line name : string) :
  StormName.potential_name line = Some name ->
  In name (StormName.potential_names before) ->
  StormName.extract_storm_info (before ++ line :: after) =
  StormName.extract_storm_info (before ++ after).
Proof.
  intros Hname Hin. unfold StormName.extract_storm_info.
  rewrite !storm_names_candidates. unfold StormName.candidates.
  rewrite !potential_names_app. unfold StormName.potential_names at 2. simpl.
  rewrite Hname. simpl.
  change (omap StormName.potential_name after) with (StormName.potential_names after).
  now rewrite first_seen_later_copy.
Qed.

Lemma extract_storm_info_ignores_repeats_witness :
  StormName.extract_storm_info
    ([StormName.adeck_line "0" "HELENE"; StormName.adeck_line "6" "HELEN"] ++
     StormName.adeck_line "12" "HELENE" :: [StormName.adeck_line "18" "HELENE"]) =
  StormName.extract_storm_info
    ([StormName.adeck_line "0" "HELENE"; StormName.adeck_line "6" "HELEN"] ++
     [StormName.adeck_line "18" "HELENE"]).
Proof.
  apply (extract_storm_info_ignores_repeats
           [StormName.adeck_line "0" "HELENE"; StormName.adeck_line "6" "HELEN"]
           [StormName.adeck_line "18" "HELENE"]
           (StormName.adeck_line "12" "HELENE") "HELENE").
  - vm_compute. reflexivity.
  - vm_compute. tauto.
Defined.

(** * The forecast hour of a run *)

(** X20: the adjusted timestamp is on the day of the given one, at the last
    of the hours 0, 6, 12, 18 that is not after it, with minutes, seconds
    and microseconds zero; it is at most six hours before the given one.
    The branch for the previous day is never taken: hour 0 is always
    valid. *)
Theorem adjust_timestamp_floors (t : Schedule.datetime) :
  Schedule.well_formed t ->
  Schedule.adjust_timestamp t =
    {| Schedule.day := Schedule.day t;
       Schedule.hour := (6 * (Schedule.hour t / 6))%Z;
       Schedule.minute := 0; Schedule.second := 0; Schedule.microsecond := 0 |} /\
  In (Schedule.hour (Schedule.adjust_timestamp t)) Schedule.forecast_hours /\
  (Schedule.instant (Schedule.adjust_timestamp t) <= Schedule.instant t
   < Schedule.instant (Schedule.adjust_timestamp t) + 6 * 3600 * 1000000)%Z.
Proof.
  intros (Hh & Hm & Hs & Hu).
  assert (Heq : Schedule.adjust_timestamp t =
    {| Schedule.day := Schedule.day t;
       Schedule.hour := (6 * (Schedule.hour t / 6))%Z;
       Schedule.minute := 0; Schedule.second := 0; Schedule.microsecond := 0 |}).
  { unfold Schedule.adjust_timestamp, Schedule.forecast_hours. simpl.
    assert (H0 : (0 <=? Schedule.hour t)%Z = true) by (apply Z.leb_le; lia).
    rewrite H0.
    assert (Hq : (Schedule.hour t / 6 = 0 \/ Schedule.hour t / 6 = 1 \/
                  Schedule.hour t / 6 = 2 \/ Schedule.hour t / 6 = 3)%Z).
    { assert (0 <= Schedule.hour t / 6 < 4)%Z; [|lia].
      split; [apply Z.div_pos; lia | apply Z.div_lt_upper_bound; lia]. }
    pose proof (Z.div_mod (Schedule.hour t) 6 ltac:(lia)) as Hdm.
    pose proof (Z.mod_pos_bound (Schedule.hour t) 6 ltac:(lia)) as Hmod.
    destruct (6 <=? Schedule.hour t)%Z eqn:H6;
      destruct (12 <=? Schedule.hour t)%Z eqn:H12;
      destruct (18 <=? Schedule.hour t)%Z eqn:H18;
      rewrite ?Z.leb_le, ?Z.leb_gt in *;
      try lia; unfold Schedule.max_of; simpl; f_equal; lia. }
  rewrite Heq. split; [reflexivity|]. split.
  - simpl.
    assert (0 <= Schedule.hour t / 6 < 4)%Z
      by (split; [apply Z.div_pos; lia | apply Z.div_lt_upper_bound; lia]).
    lia.
  - unfold Schedule.instant. simpl.
    pose proof (Z.div_mod (Schedule.hour t) 6 ltac:(lia)) as Hdm.
    pose proof (Z.mod_pos_bound (Schedule.hour t) 6 ltac:(lia)) as Hmod.
    lia.
Qed.

Lemma adjust_timestamp_floors_witness :
  Schedule.adjust_timestamp
    {| Schedule.day := 739165; Schedule.hour := 17; Schedule.minute := 42;
       Schedule.second := 7; Schedule.microsecond := 0 |} =
    {| Schedule.day := 739165; Schedule.hour := 12;
       Schedule.minute := 0; Schedule.second := 0; Schedule.microsecond := 0 |}.
Proof.
  apply (adjust_timestamp_floors
           {| Schedule.day := 739165; Schedule.hour := 17; Schedule.minute := 42;
              Schedule.second := 7; Schedule.microsecond := 0 |}).
  unfold Schedule.well_formed. simpl. lia.
Defined.

(** * Reading one line of an a-deck file *)

Section AdeckFacts.
Import PyStr AdeckReader.

Lemma columns_nodup : NoDup columns.
Proof. refine (bool_decide_unpack _ _). vm_compute. exact I. Qed.

Lemma extra_key_not_column (j : nat) : extra_key j ∉ columns.
Proof.
  unfold extra_key. generalize (pretty (j - length columns + 1)%nat). intros x.
  unfold columns. intros Hin. apply list_elem_of_In in Hin. simpl in Hin.
  repeat (destruct Hin as [Hin|Hin]; [discriminate Hin|]). exact Hin.
Qed.

Lemma extra_key_inj (a b : nat) :
  (length columns <= a)%nat -> (length columns <= b)%nat ->
  extra_key a = extra_key b -> a = b.
Proof.
  unfold extra_key. intros Ha Hb Heq.
  assert (Hp : pretty (a - length columns + 1)%nat = pretty (b - length columns + 1)%nat).
  { revert Heq.
    generalize (pretty (a - length columns + 1)%nat) (pretty (b - length columns + 1)%nat).
    intros x y Heq. now injection Heq. }
  apply (inj pretty) in Hp. lia.
Qed.

Lemma fill_columns_other (names fields : list string) (record : gmap string string)
    (key : string) :
  key ∉ names -> fill_columns names fields record !! key = record !! key.
Proof.
  revert fields record. induction names as [|n ns IH]; intros fields record Hkey;
    [reflexivity|].
  apply not_elem_of_cons in Hkey as [Hne Hkey].
  destruct fields as [|f fs]; [reflexivity|].
  simpl. rewrite IH by exact Hkey. now apply lookup_insert_ne.
Qed.

Lemma fill_columns_lookup (names fields : list string) (record : gmap string string)
    (i : nat) (name field : string) :
  NoDup names -> names !! i = Some name -> fields !! i = Some field ->
  fill_columns names fields record !! name = Some field.
Proof.
  revert fields record i. induction names as [|n ns IH]; intros fields record i Hnd Hn Hf;
    [discriminate|].
  destruct fields as [|f fs]; [discriminate|].
  apply NoDup_cons in Hnd as [Hfresh Hnd].
  destruct i as [|i]; simpl in *.
  - injection Hn as <-. injection Hf as <-.
    rewrite fill_columns_other by exact Hfresh. apply lookup_insert_eq.
  - now apply (IH fs _ i).
Qed.

Lemma fill_columns_size (names fields : list string) (record : gmap string string) :
  NoDup names -> (forall n, n ∈ names -> record !! n = None) ->
  size (fill_columns names fields record) =
  (size record + Nat.min (length names) (length fields))%nat.
Proof.
  revert fields record. induction names as [|n ns IH]; intros fields record Hnd Hfresh;
    simpl; [lia|].
  destruct fields as [|f fs]; simpl; [lia|].
  apply NoDup_cons in Hnd as [Hn Hnd].
  rewrite IH; [|exact Hnd|].
  - rewrite map_size_insert_None by (apply Hfresh, list_elem_of_here). lia.
  - intros m Hm. rewrite lookup_insert_ne; [apply Hfresh; now apply list_elem_of_further|].
    intros ->. contradiction.
Qed.

Lemma fill_extra_other (j : nat) (rest : list string) (record : gmap string string)
    (key : string) :
  (forall k, key <> extra_key (j + k)) ->
  fill_extra j rest record !! key = record !! key.
Proof.
  revert j record. induction rest as [|f fs IH]; intros j record Hkey; [reflexivity|].
  simpl. rewrite IH.
  - apply lookup_insert_ne. intros Heq. apply (Hkey 0%nat).
    rewrite Nat.add_0_r. now symmetry.
  - intros k. replace (S j + k)%nat with (j + S k)%nat by lia. apply Hkey.
Qed.

Lemma fill_extra_lookup (j : nat) (rest : list string) (record : gmap string string)
    (k : nat) (field : string) :
  (length columns <= j)%nat -> rest !! k = Some field ->
  fill_extra j rest record !! extra_key (j + k) = Some field.
Proof.
  revert j record k. induction rest as [|f fs IH]; intros j record k Hj Hk; [discriminate|].
  destruct k as [|k]; simpl in Hk; cbn [fill_extra].
  - injection Hk as <-. rewrite Nat.add_0_r.
    rewrite fill_extra_other; [apply lookup_insert_eq|].
    intros k Heq. apply extra_key_inj in Heq; lia.
  - replace (j + S k)%nat with (S j + k)%nat by lia.
    apply IH; [lia | exact Hk].
Qed.

Lemma fill_extra_size (j : nat) (rest : list string) (record : gmap string string) :
  (length columns <= j)%nat ->
  (forall k, record !! extra_key (j + k) = None) ->
  size (fill_extra j rest record) = (size record + length rest)%nat.
Proof.
  revert j record. induction rest as [|f fs IH]; intros j record Hj Hfresh; simpl; [lia|].
  rewrite IH; [| lia |].
  - rewrite map_size_insert_None; [lia|].
    specialize (Hfresh 0%nat). now rewrite Nat.add_0_r in Hfresh.
  - intros k. rewrite lookup_insert_ne.
    + replace (S j + k)%nat with (j + S k)%nat by lia. apply Hfresh.
    + intros Heq. apply extra_key_inj in Heq; lia.
Qed.

(** The record of a list of fields holds each field under the key of its
    position, and nothing else. *)
Lemma record_of_fields_keeps (fields : list string) :
  size (record_of_fields fields) = length fields /\
  forall i field, fields !! i = Some field ->
                  record_of_fields fields !! field_key i = Some field.
Proof.
  assert (Hlen : length columns = 26%nat) by reflexivity.
  unfold record_of_fields. cbv zeta.
  destruct (length columns <? length fields)%nat eqn:Hmore.
  - apply Nat.ltb_lt in Hmore. split.
    + rewrite fill_extra_size; [| lia |].
      * rewrite fill_columns_size; [| exact columns_nodup | intros; apply lookup_empty].
        rewrite map_size_empty, length_drop. lia.
      * intros k. rewrite fill_columns_other by apply extra_key_not_column.
        apply lookup_empty.
    + intros i field Hi. unfold field_key.
      destruct (columns !! i) as [name|] eqn:Hname.
      * rewrite fill_extra_other.
        -- now apply (fill_columns_lookup _ _ _ i); [exact columns_nodup | |].
        -- intros k Heq. apply (extra_key_not_column (length columns + k)).
           rewrite <- Heq. apply list_elem_of_lookup. eauto.
      * apply lookup_ge_None in Hname.
        replace i with (length columns + (i - length columns))%nat at 1 by lia.
        apply fill_extra_lookup; [lia|].
        rewrite lookup_drop. now replace (length columns + (i - length columns))%nat with i by lia.
  - apply Nat.ltb_ge in Hmore. split.
    + rewrite fill_columns_size; [| exact columns_nodup | intros; apply lookup_empty].
      rewrite map_size_empty. lia.
    + intros i field Hi. unfold field_key.
      pose proof (lookup_lt_Some _ _ _ Hi) as Hlt.
      destruct (columns !! i) as [name|] eqn:Hname.
      * now apply (fill_columns_lookup _ _ _ i); [exact columns_nodup | |].
      * apply lookup_ge_None in Hname. lia.
Qed.

End AdeckFacts.

(** X21: a line that is not blank gives a record that keeps every
    comma-separated field of it, stripped: the first 26 under the column
    names, the others under ExtraField1, ExtraField2 and so on; the record
    has as many entries as the line has fields. A blank line gives no
    record. *)
Theorem record_of_line_keeps_every_field (line : string) :
  (PyStr.strip line = EmptyString -> AdeckReader.record_of_line line = None) /\
  (PyStr.strip line <> EmptyString ->
   exists record,
     AdeckReader.record_of_line line = Some record /\
     let fields := map PyStr.strip (AdeckReader.split_on "," (PyStr.strip line)) in
     size record = length fields /\
     forall i field, fields !! i = Some field ->
                     record !! AdeckReader.field_key i = Some field).
Proof.
  unfold AdeckReader.record_of_line. cbv zeta. split.
  - intros ->. reflexivity.
  - intros Hne. destruct (PyStr.strip line) as [|c rest] eqn:Hs; [congruence|].
    cbn [PyStr.is_empty]. eexists. split; [reflexivity|].
    apply record_of_fields_keeps.
Qed.

Lemma record_of_line_keeps_every_field_witness :
  exists record,
    AdeckReader.record_of_line " AL, 09, 2024092500, 03, OFCL,  12, 253N,  845W " = Some record /\
    size record = 8%nat /\
    record !! "Latitude" = Some "253N" /\ record !! "Longitude" = Some "845W".
Proof.
  destruct (proj2 (record_of_line_keeps_every_field
                     " AL, 09, 2024092500, 03, OFCL,  12, 253N,  845W "))
    as (record & Hrec & Hsize & Hfields); [vm_compute; discriminate|].
  exists record. split; [exact Hrec|]. split; [exact Hsize|]. split.
  - apply (Hfields 6%nat). reflexivity.
  - apply (Hfields 7%nat). reflexivity.
Defined.

(** * The storm directory *)

Section DirectoryFacts.
Import StormDirectory.

Lemma same_storm_key (basin : string) (number year : Z) (row : StormRow) :
  same_storm basin number year row = true <-> storm_key row = (basin, number, year).
Proof.
  unfold same_storm, storm_key.
  rewrite !andb_true_iff, String.eqb_eq, !Z.eqb_eq.
  split; [intros [[-> ->] ->]; reflexivity | intros [= -> -> ->]; tauto].
Qed.

Lemma update_row_key (basin : string) (number year : Z) (name start_date end_date : string)
    (row : StormRow) :
  storm_key (update_row basin number year name start_date end_date row) = storm_key row.
Proof. unfold update_row. now destruct (same_storm basin number year row). Qed.

Lemma update_row_same_storm (basin : string) (number year : Z)
    (name start_date end_date : string) (row : StormRow) :
  same_storm basin number year (update_row basin number year name start_date end_date row) =
  same_storm basin number year row.
Proof.
  unfold update_row. destruct (same_storm basin number year row) eqn:Hrow; exact Hrow.
Qed.

Lemma update_row_idempotent (basin : string) (number year : Z)
    (name start_date end_date : string) (row : StormRow) :
  update_row basin number year name start_date end_date
    (update_row basin number year name start_date end_date row) =
  update_row basin number year name start_date end_date row.
Proof.
  unfold update_row at 1. rewrite update_row_same_storm.
  unfold update_row. destruct (same_storm basin number year row); reflexivity.
Qed.

Lemma update_rows_others (basin : string) (number year : Z)
    (name start_date end_date : string) (df : list StormRow) :
  List.filter (fun r => negb (same_storm basin number year r))
    (map (update_row basin number year name start_date end_date) df) =
  List.filter (fun r => negb (same_storm basin number year r)) df.
Proof.
  induction df as [|r rest IH]; [reflexivity|].
  simpl. rewrite update_row_same_storm, IH.
  unfold update_row. destruct (same_storm basin number year r) eqn:Hr; reflexivity.
Qed.

Lemma update_rows_values (basin : string) (number year : Z)
    (name start_date end_date : string) (df : list StormRow) :
  Forall (fun r => same_storm basin number year r = true ->
                   Storm_Name r = name /\ Storm_Start_Date r = start_date /\
                   Storm_End_Date r = end_date)
         (map (update_row basin number year name start_date end_date) df).
Proof.
  apply Forall_forall. intros r' Hin. apply list_elem_of_In, in_map_iff in Hin as (r & <- & _).
  rewrite update_row_same_storm. intros Hr. unfold update_row. rewrite Hr.
  repeat split.
Qed.

Lemma existsb_update_rows (basin : string) (number year : Z)
    (name start_date end_date : string) (df : list StormRow) :
  existsb (same_storm basin number year)
    (map (update_row basin number year name start_date end_date) df) =
  existsb (same_storm basin number year) df.
Proof.
  induction df as [|r rest IH]; [reflexivity|].
  simpl. now rewrite update_row_same_storm, IH.
Qed.

Lemma update_rows_no_match (basin : string) (number year : Z)
    (name start_date end_date : string) (df : list StormRow) :
  existsb (same_storm basin number year) df = false ->
  map (update_row basin number year name start_date end_date) df = df.
Proof.
  induction df as [|r rest IH]; [reflexivity|].
  simpl. intros [Hr Hrest]%orb_false_iff.
  unfold update_row at 1. now rewrite Hr, IH.
Qed.

End DirectoryFacts.

(** The two ways the table comes out. *)
Lemma update_storm_directory_cases (df df' : list StormDirectory.StormRow)
    (file_name storm_name start_date end_date : string) (storm_year : Z) :
  StormDirectory.update_storm_directory df file_name storm_name
    (Some (start_date, end_date, storm_year)) = Ok (Some df') ->
  exists number,
    StormDirectory.py_int (substring 3 2 file_name) = Ok number /\
    let this_storm := StormDirectory.same_storm (substring 1 2 file_name) number storm_year in
    (existsb this_storm df = true /\
     df' = map (StormDirectory.update_row (substring 1 2 file_name) number storm_year
                  storm_name start_date end_date) df) \/
    (existsb this_storm df = false /\
     exists new_row,
       df' = (df ++ [new_row])%list /\ this_storm new_row = true /\
       StormDirectory.set_storm storm_name start_date end_date new_row = new_row).
Proof.
  unfold StormDirectory.update_storm_directory. cbv zeta.
  destruct (StormDirectory.py_int (substring 3 2 file_name)) as [number|e]; [|discriminate].
  cbn [mbind result_bind]. intros Hupd. exists number. split; [reflexivity|].
  destruct (existsb _ df) eqn:Hex.
  - left. split; [reflexivity|]. now injection Hupd as <-.
  - right. split; [reflexivity|]. injection Hupd as <-.
    eexists. split; [reflexivity|]. split; [|reflexivity].
    unfold StormDirectory.same_storm. simpl.
    now rewrite String.eqb_refl, !Z.eqb_refl.
Qed.

(** X22: what is written back holds the storm of the file, with the new
    name and dates on every row of that storm; the rows of the other storms
    are as they were, in their order; the table is one row longer when the
    storm was not in it, and as long as before when it was. *)
Theorem update_storm_directory_upserts (df df' : list StormDirectory.StormRow)
    (file_name storm_name start_date end_date : string) (storm_year : Z) :
  StormDirectory.update_storm_directory df file_name storm_name
    (Some (start_date, end_date, storm_year)) = Ok (Some df') ->
  exists number,
    StormDirectory.py_int (substring 3 2 file_name) = Ok number /\
    let this_storm := StormDirectory.same_storm (substring 1 2 file_name) number storm_year in
    Exists (fun r => this_storm r = true) df' /\
    Forall (fun r => this_storm r = true ->
                     StormDirectory.Storm_Name r = storm_name /\
                     StormDirectory.Storm_Start_Date r = start_date /\
                     StormDirectory.Storm_End_Date r = end_date) df' /\
    List.filter (fun r => negb (this_storm r)) df' =
      List.filter (fun r => negb (this_storm r)) df /\
    length df' = (if existsb this_storm df then length df else S (length df)).
Proof.
  intros Hupd.
  destruct (update_storm_directory_cases _ _ _ _ _ _ _ Hupd)
    as (number & Hint & [[Hex ->]|[Hex (new_row & -> & Hnew & Hset)]]);
    exists number; (split; [exact Hint|]); cbv zeta; rewrite Hex.
  - split; [|split; [|split]].
    + apply Exists_exists. apply existsb_exists in Hex as (r & Hr & Hm).
      eexists. split; [apply list_elem_of_In, in_map, Hr|].
      now rewrite update_row_same_storm.
    + apply update_rows_values.
    + apply update_rows_others.
    + now rewrite length_map.
  - split; [|split; [|split]].
    + apply Exists_exists. exists new_row. split; [|exact Hnew].
      apply elem_of_app. right. apply list_elem_of_here.
    + apply Forall_app. split.
      * apply Forall_forall. intros r Hr Hm.
        assert (Hnone : existsb (StormDirectory.same_storm (substring 1 2 file_name) number storm_year) df = true).
        { apply existsb_exists. exists r. split; [now apply list_elem_of_In | exact Hm]. }
        congruence.
      * constructor; [|constructor]. intros _. rewrite <- Hset. repeat split.
    + rewrite List.filter_app. simpl. rewrite Hnew. simpl. now rewrite app_nil_r.
    + rewrite length_app. simpl. lia.
Qed.

Lemma update_storm_directory_upserts_witness :
  exists number,
    StormDirectory.py_int (substring 3 2 "aep092024.dat") = Ok number /\
    let this_storm := StormDirectory.same_storm (substring 1 2 "aep092024.dat") number 2024 in
    let df' :=
      map (StormDirectory.update_row "ep" 9 2024 "John" "2024-09-20 00:00:00"
             "2024-09-27 12:00:00") StormDirectory.sample_directory in
    Exists (fun r => this_storm r = true) df' /\
    Forall (fun r => this_storm r = true ->
                     StormDirectory.Storm_Name r = "John" /\
                     StormDirectory.Storm_Start_Date r = "2024-09-20 00:00:00" /\
                     StormDirectory.Storm_End_Date r = "2024-09-27 12:00:00") df' /\
    List.filter (fun r => negb (this_storm r)) df' =
      List.filter (fun r => negb (this_storm r)) StormDirectory.sample_directory /\
    length df' = (if existsb this_storm StormDirectory.sample_directory
                  then length StormDirectory.sample_directory
                  else S (length StormDirectory.sample_directory)).
Proof.
  destruct (update_storm_directory_upserts StormDirectory.sample_directory
              (map (StormDirectory.update_row "ep" 9 2024 "John" "2024-09-20 00:00:00"
                      "2024-09-27 12:00:00") StormDirectory.sample_directory)
              "aep092024.dat" "John" "2024-09-20 00:00:00" "2024-09-27 12:00:00" 2024)
    as (number & Hint & Hrest); [vm_compute; reflexivity|].
  assert (Hnumber : number = 9%Z) by (vm_compute in Hint; congruence).
  subst number. exists 9%Z. split; [vm_compute; reflexivity | exact Hrest].
Defined.

(** X23: writing the same storm a second time changes nothing. *)
Theorem update_storm_directory_idempotent (df df' : list StormDirectory.StormRow)
    (file_name storm_name start_date end_date : string) (storm_year : Z) :
  StormDirectory.update_storm_directory df file_name storm_name
    (Some (start_date, end_date, storm_year)) = Ok (Some df') ->
  StormDirectory.update_storm_directory df' file_name storm_name
    (Some (start_date, end_date, storm_year)) = Ok (Some df').
Proof.
  intros Hupd.
  destruct (update_storm_directory_cases _ _ _ _ _ _ _ Hupd)
    as (number & Hint & [[Hex ->]|[Hex (new_row & -> & Hnew & Hset)]]);
    unfold StormDirectory.update_storm_directory; cbv zeta; rewrite Hint;
    cbn [mbind result_bind].
  - rewrite existsb_update_rows, Hex. do 2 f_equal.
    rewrite map_map. apply map_ext. intros r. apply update_row_idempotent.
  - rewrite existsb_app. simpl. rewrite Hnew, orb_true_r. do 2 f_equal.
    rewrite map_app. cbn [map].
    unfold StormDirectory.update_row at 2. rewrite Hnew, Hset.
    now rewrite update_rows_no_match.
Qed.

Lemma update_storm_directory_idempotent_witness :
  exists df',
    StormDirectory.update_storm_directory StormDirectory.sample_directory
      "awp102024.dat" "Pulasan" (Some ("2024-09-15 00:00:00", "2024-09-21 00:00:00", 2024%Z))
      = Ok (Some df') /\
    StormDirectory.update_storm_directory df'
      "awp102024.dat" "Pulasan" (Some ("2024-09-15 00:00:00", "2024-09-21 00:00:00", 2024%Z))
      = Ok (Some df').
Proof.
  eexists. split; [vm_compute; reflexivity|].
  apply (update_storm_directory_idempotent StormDirectory.sample_directory).
  vm_compute. reflexivity.
Defined.

(** X24: when no two rows of the table are of the same storm, that is the
    same basin, number and year, no two rows of what is written back are
    either. *)
Theorem update_storm_directory_keeps_keys_unique (df df' : list StormDirectory.StormRow)
    (file_name storm_name start_date end_date : string) (storm_year : Z) :
  NoDup (map StormDirectory.storm_key df) ->
  StormDirectory.update_storm_directory df file_name storm_name
    (Some (start_date, end_date, storm_year)) = Ok (Some df') ->
  NoDup (map StormDirectory.storm_key df').
Proof.
  intros Hnd Hupd.
  destruct (update_storm_directory_cases _ _ _ _ _ _ _ Hupd)
    as (number & Hint & [[Hex ->]|[Hex (new_row & -> & Hnew & Hset)]]).
  - rewrite map_map.
    erewrite map_ext; [exact Hnd|].
    intros r. apply update_row_key.
  - rewrite map_app. simpl. apply NoDup_app. split; [exact Hnd|]. split.
    + intros key Hkey Hin. apply list_elem_of_singleton in Hin as ->.
      apply list_elem_of_In, in_map_iff in Hkey as (r & Hkey & Hr).
      apply same_storm_key in Hnew. rewrite Hnew in Hkey.
      apply same_storm_key in Hkey.
      assert (existsb (StormDirectory.same_storm (substring 1 2 file_name) number storm_year) df = true)
        by (apply existsb_exists; eauto).
      congruence.
    + apply NoDup_singleton.
Qed.

Lemma update_storm_directory_keeps_keys_unique_witness :
  NoDup (map StormDirectory.storm_key
           (StormDirectory.sample_directory ++
            [{| StormDirectory.Basin := "wp"; StormDirectory.Storm_Number := 10;
                StormDirectory.Storm_Name := "Pulasan";
                StormDirectory.Storm_Start_Date := "2024-09-15 00:00:00";
                StormDirectory.Storm_End_Date := "2024-09-21 00:00:00";
                StormDirectory.Storm_Year := 2024;
                StormDirectory.adeck_path := "awp102024.dat";
                StormDirectory.adeck_path_parquet :=
                  Some "./forecast_data_parquet/awp102024.parquet" |}])).
Proof.
  apply (update_storm_directory_keeps_keys_unique StormDirectory.sample_directory _
           "awp102024.dat" "Pulasan" "2024-09-15 00:00:00" "2024-09-21 00:00:00" 2024).
  - refine (bool_decide_unpack _ _). vm_compute. exact I.
  - vm_compute. reflexivity.
Defined.



Lemma category_to_color_of_classifier_witness :
  Intensity.wind_speed_to_category 40 = Intensity.wind_speed_to_category 60.
Proof.
  apply (proj2 (proj2 (proj2 (category_to_color_of_classifier 40 60 1000)))).
  vm_compute. reflexivity.
Defined.
